(** * IBTK element Jacobian calculators (ibtk/src/lagrangian/JacobianCalculator.cpp)

    A shallow embedding of the [JacobianCalculator] class family: the base
    class, the generic [LagrangeJacobianCalculator<dim, spacedim>] and the
    closed-form kernels for Tri3, Quad4, Quad9 and Tet4 elements.

    - A C++ [double] is an IEEE binary64 number: Rocq's primitive [float],
      with the rounding of every operation.
    - A failed [TBOX_ASSERT] or a [TBOX_ERROR] ends the call: functions
      that can fail return an [outcome].
    - A calculator is a record of its data members; [get_JxW] returns the
      calculator after the call, and the reference it hands back denotes
      the member [d_JxW] of that calculator.
    - libMesh (quadrature rules, shape functions, element data) is an
      interface, the class [LibMesh]. *)

From Stdlib Require Import ZArith List Floats Lia Bool.
From stdpp Require Import base option list.

Set Default Proof Using "Type".
Set Warnings "-inexact-float".

(** ** Scalars *)

Abbreviation double := float.

(** ** Outcomes of calls that may abort *)

(** The expressions asserted in the source file. *)
Inductive assertion : Type :=
  | elem_type_is_key_type      (* elem->type() == std::get<0>(d_quad_key) *)
  | J_positive                 (* J > 0.0 *)
  | determinant_unspecialised  (* TBOX_ASSERT(false) in the primary template *)
  | n_nodes_bounded            (* d_n_nodes <= max_n_nodes *)
  | oned_points_square         (* n * n == d_quad_points.size() *)
  | tensor_product_point.      (* d_quad_points[q] == Point(p_i, p_j) *)

Inductive failure : Type :=
  | AssertionFailed (a : assertion)
  | NotImplemented.            (* TBOX_ERROR of the base class *)

Inductive outcome (A : Type) : Type :=
  | Returned (a : A)
  | Aborted (f : failure).

Arguments Returned {A} a.
Arguments Aborted {A} f.

Definition bind {A B : Type} (m : outcome A) (k : A -> outcome B) : outcome B :=
  match m with
  | Returned a => k a
  | Aborted f => Aborted f
  end.

Declare Scope outcome_scope.
Delimit Scope outcome_scope with outcome.
Notation "x <- m ;; k" := (bind m (fun x => k))
  (at level 100, m at next level, right associativity) : outcome_scope.
Notation "m ;; k" := (bind m (fun _ => k))
  (at level 100, right associativity) : outcome_scope.
Open Scope outcome_scope.

(** Modelled from the spec: the macro [TBOX_ASSERT] of SAMRAI's
    tbox/Utilities.h.  A violated assertion is a fatal contract error: the
    call does not return. *)
Definition TBOX_ASSERT (a : assertion) (b : bool) : outcome unit :=
  if b then Returned tt else Aborted (AssertionFailed a).

(** Modelled from the spec: the macro [TBOX_ERROR] of SAMRAI's
    tbox/Utilities.h; it reports the message and aborts. *)
Definition TBOX_ERROR : outcome unit := Aborted NotImplemented.

Definition returned {A : Type} (m : outcome A) : bool :=
  match m with Returned _ => true | Aborted _ => false end.

(** ** Loops *)

(** [for (unsigned i = 0; i < n; ++i) body] on a state [St]. *)
Definition for_loop {St : Type} (n : nat) (body : nat -> St -> St) (s : St) : St :=
  fold_left (fun s i => body i s) (seq 0 n) s.

(** The same loop when the body may abort. *)
Fixpoint for_each {St : Type} (l : list nat) (body : nat -> St -> outcome St)
    (s : St) : outcome St :=
  match l with
  | [] => Returned s
  | i :: l' => s' <- body i s ;; for_each l' body s'
  end.

Definition for_loopM {St : Type} (n : nat) (body : nat -> St -> outcome St)
    (s : St) : outcome St :=
  for_each (seq 0 n) body s.

(** ** Arrays *)

(** [std::vector<double>] and fixed arrays: lists, read by index.  Every
    index the code reads is in range for a calculator made by its
    constructor; an out-of-range read (undefined in C++) yields [0.0]. *)
Definition at_ (v : list double) (i : nat) : double := default 0%float (v !! i).

Abbreviation matrix := (list (list float)).

Definition mat_get (A : matrix) (i j : nat) : double :=
  at_ (default [] (A !! i)) j.

Definition mat_set (A : matrix) (i j : nat) (x : double) : matrix :=
  alter (fun row => <[j := x]> row) i A.

(** [double A[M][N]{ { 0.0 } }]: every entry zero. *)
Definition zeros (M N : nat) : matrix := replicate M (replicate N 0%float).

(** [std::copy(src.begin(), src.end(), dst.begin())], for a destination at
    least as long as the source. *)
Definition std_copy (src dst : list double) : list double :=
  src ++ drop (length src) dst.

(** ** libMesh data *)

Inductive ElemType : Type :=
  | EDGE2 | EDGE3 | TRI3 | TRI6 | QUAD4 | QUAD9 | TET4 | TET10 | HEX8 | HEX27.

Inductive QuadratureType : Type := QGAUSS | QGAUSS_LOBATTO | QGRID.

Definition Order : Type := nat.
Definition FIRST : Order := 1.
Definition SECOND : Order := 2.
Definition THIRD : Order := 3.

#[global] Instance ElemType_eq_dec : EqDecision ElemType.
Proof. solve_decision. Defined.

(** [JacobianCalculator::key_type]: a tuple, read with [std::get<i>]. *)
Definition key_type : Type := ElemType * QuadratureType * Order.

Definition get0 (k : key_type) : ElemType := fst (fst k).
Definition get1 (k : key_type) : QuadratureType := snd (fst k).
Definition get2 (k : key_type) : Order := snd k.

(** [libMesh::Point]: three coordinates (LIBMESH_DIM = 3); [p(j)] reads
    coordinate [j]. *)
Record Point : Type := mkPoint { px : double; py : double; pz : double }.

Definition coord (p : Point) (j : nat) : double :=
  match j with
  | 0 => px p
  | 1 => py p
  | _ => pz p
  end.

(** [Point(x)] and [Point(x, y)]: missing coordinates are zero. *)
Definition Point1 (x : double) : Point := mkPoint x 0%float 0%float.
Definition Point2 (x y : double) : Point := mkPoint x y 0%float.

(** [libMesh::Elem], as the calculators see it. *)
Record Elem : Type := mkElem { type : ElemType; point : nat -> Point }.

(** What the calculators take from libMesh and from
    ibtk/libmesh_utilities.h. *)
Class LibMesh : Type := {
  (** [get_dim], [get_n_nodes], [get_default_order] of libmesh_utilities.h *)
  get_dim : ElemType -> nat;
  get_n_nodes : ElemType -> nat;
  get_default_order : ElemType -> Order;
  (** [QBase::build(quad_type, dim, order)], then [init(elem_type)]:
      [get_points()] and [get_weights()] *)
  get_points : QuadratureType -> nat -> Order -> ElemType -> list Point;
  get_weights : QuadratureType -> nat -> Order -> ElemType -> list double;
  (** [FE<dim, LAGRANGE>::shape(elem_type, order, node, p)] *)
  shape : nat -> ElemType -> Order -> nat -> Point -> double;
  (** [FE<dim, LAGRANGE>::shape_deriv(elem_type, order, node, d, p)] *)
  shape_deriv : nat -> ElemType -> Order -> nat -> nat -> Point -> double;
  (** [libMesh::Elem::max_n_nodes] (27) *)
  max_n_nodes : nat;
  (** [operator==] of [libMesh::Point] *)
  Point_eq : Point -> Point -> bool
}.

(** ** The base class *)

Record JacobianCalculator : Type := mkJacobianCalculator {
  d_quad_key : key_type;
  d_quad_points : list Point;
  d_quad_weights : list double;
  d_JxW : list double
}.

Definition set_JxW (c : JacobianCalculator) (JxW : list double)
    : JacobianCalculator :=
  {| d_quad_key := d_quad_key c;
     d_quad_points := d_quad_points c;
     d_quad_weights := d_quad_weights c;
     d_JxW := JxW |}.

Definition JacobianCalculator_new `{LibMesh} (quad_key : key_type)
    : JacobianCalculator :=
  let elem_type := get0 quad_key in
  let quad_type := get1 quad_key in
  let order := get2 quad_key in
  let dim := get_dim elem_type in
  let quad_points := get_points quad_type dim order elem_type in
  let quad_weights := get_weights quad_type dim order elem_type in
  {| d_quad_key := quad_key;
     d_quad_points := quad_points;
     d_quad_weights := quad_weights;
     d_JxW := replicate (length quad_weights) 0%float |}.

Definition JacobianCalculator_get_JxW (c : JacobianCalculator) (elem : Elem)
    : outcome JacobianCalculator :=
  TBOX_ERROR ;; Returned c.

(** The first two statements of every [get_JxW]. *)
Definition check_type_and_copy (c : JacobianCalculator) (elem : Elem)
    : outcome (list double) :=
  TBOX_ASSERT elem_type_is_key_type
    (bool_decide (type elem = get0 (d_quad_key c))) ;;
  Returned (std_copy (d_quad_weights c) (d_JxW c)).

(** [for (double& jxw : d_JxW) jxw *= J;] *)
Definition scale_all (J : double) (JxW : list double) : list double :=
  fmap (fun jxw => (jxw * J)%float) JxW.

(** [d_JxW[q] *= J;] *)
Definition scale_at (q : nat) (J : double) (JxW : list double) : list double :=
  <[q := (at_ JxW q * J)%float]> JxW.

(** ** The determinant helper *)

(** [template <int M, int N> double determinant(const double (&)[M][N])]
    and its three specialisations. *)
Definition determinant (M N : nat) (A : matrix) : outcome double :=
  match M, N with
  | 1, 1 => Returned (mat_get A 0 0)
  | 2, 2 =>
      Returned (mat_get A 0 0 * mat_get A 1 1 - mat_get A 0 1 * mat_get A 1 0)%float
  | 3, 3 =>
      Returned
        (mat_get A 0 0 * (mat_get A 1 1 * mat_get A 2 2 - mat_get A 1 2 * mat_get A 2 1)
         - mat_get A 1 0 * (mat_get A 0 1 * mat_get A 2 2 - mat_get A 0 2 * mat_get A 2 1)
         + mat_get A 2 0 * (mat_get A 0 1 * mat_get A 1 2 - mat_get A 0 2 * mat_get A 1 1))%float
  | _, _ => TBOX_ASSERT determinant_unspecialised false ;; Returned 0%float
  end.

(** ** Tri3 *)

Definition Tri3_J (elem : Elem) : double :=
  let p0 := point elem 0 in
  let p1 := point elem 1 in
  let p2 := point elem 2 in
  let Jac_00 := (coord p1 0 - coord p0 0)%float in
  let Jac_01 := (coord p2 0 - coord p0 0)%float in
  let Jac_10 := (coord p1 1 - coord p0 1)%float in
  let Jac_11 := (coord p2 1 - coord p0 1)%float in
  (Jac_00 * Jac_11 - Jac_01 * Jac_10)%float.

Definition Tri3_get_JxW (c : JacobianCalculator) (elem : Elem)
    : outcome JacobianCalculator :=
  JxW <- check_type_and_copy c elem ;;
  let J := Tri3_J elem in
  TBOX_ASSERT J_positive (0 <? J)%float ;;
  Returned (set_JxW c (scale_all J JxW)).

(** ** Tet4 *)

Definition Tet4_J (elem : Elem) : double :=
  let p0 := point elem 0 in
  let p1 := point elem 1 in
  let p2 := point elem 2 in
  let p3 := point elem 3 in
  let Jac_00 := (coord p1 0 - coord p0 0)%float in
  let Jac_01 := (coord p2 0 - coord p0 0)%float in
  let Jac_02 := (coord p3 0 - coord p0 0)%float in
  let Jac_10 := (coord p1 1 - coord p0 1)%float in
  let Jac_11 := (coord p2 1 - coord p0 1)%float in
  let Jac_12 := (coord p3 1 - coord p0 1)%float in
  let Jac_20 := (coord p1 2 - coord p0 2)%float in
  let Jac_21 := (coord p2 2 - coord p0 2)%float in
  let Jac_22 := (coord p3 2 - coord p0 2)%float in
  (Jac_00 * (Jac_11 * Jac_22 - Jac_12 * Jac_21)
   - Jac_10 * (Jac_01 * Jac_22 - Jac_02 * Jac_21)
   + Jac_20 * (Jac_01 * Jac_12 - Jac_02 * Jac_11))%float.

Definition Tet4_get_JxW (c : JacobianCalculator) (elem : Elem)
    : outcome JacobianCalculator :=
  JxW <- check_type_and_copy c elem ;;
  let J := Tet4_J elem in
  TBOX_ASSERT J_positive (0 <? J)%float ;;
  Returned (set_JxW c (scale_all J JxW)).

(** ** Quad4 *)

(** The six constants computed before the loop. *)
Record Quad4_coeffs : Type := mkQuad4_coeffs {
  a_1 : double; b_1 : double; c_1 : double;
  a_2 : double; b_2 : double; c_2 : double
}.

Definition Quad4_constants (elem : Elem) : Quad4_coeffs :=
  let p0 := point elem 0 in
  let p1 := point elem 1 in
  let p2 := point elem 2 in
  let p3 := point elem 3 in
  {| a_1 := (0.25 * (- coord p0 0 + coord p1 0 + coord p2 0 - coord p3 0))%float;
     b_1 := (0.25 * (- coord p0 0 - coord p1 0 + coord p2 0 + coord p3 0))%float;
     c_1 := (0.25 * (coord p0 0 - coord p1 0 + coord p2 0 - coord p3 0))%float;
     a_2 := (0.25 * (- coord p0 1 + coord p1 1 + coord p2 1 - coord p3 1))%float;
     b_2 := (0.25 * (- coord p0 1 - coord p1 1 + coord p2 1 + coord p3 1))%float;
     c_2 := (0.25 * (coord p0 1 - coord p1 1 + coord p2 1 - coord p3 1))%float |}.

(** The body of the loop, up to the assertion. *)
Definition Quad4_J (k : Quad4_coeffs) (p : Point) : double :=
  let x := coord p 0 in
  let y := coord p 1 in
  let Jac_00 := (a_1 k + c_1 k * y)%float in
  let Jac_01 := (b_1 k + c_1 k * x)%float in
  let Jac_10 := (a_2 k + c_2 k * y)%float in
  let Jac_11 := (b_2 k + c_2 k * x)%float in
  (Jac_00 * Jac_11 - Jac_01 * Jac_10)%float.

Definition Point_at (v : list Point) (i : nat) : Point :=
  default (mkPoint 0%float 0%float 0%float) (v !! i).

Definition Quad4_get_JxW (c : JacobianCalculator) (elem : Elem)
    : outcome JacobianCalculator :=
  JxW <- check_type_and_copy c elem ;;
  let k := Quad4_constants elem in
  JxW <- for_loopM (length JxW) (fun i JxW =>
           let J := Quad4_J k (Point_at (d_quad_points c) i) in
           TBOX_ASSERT J_positive (0 <? J)%float ;;
           Returned (scale_at i J JxW)) JxW ;;
  Returned (set_JxW c JxW).

(** ** The generic Lagrange calculator *)

(** [tabulate M N f]: the [M] by [N] array with entry [f i j] at [i][j]. *)
Definition tabulate (M N : nat) (f : nat -> nat -> double) : matrix :=
  fmap (fun i => fmap (fun j => f i j) (seq 0 N)) (seq 0 M).

(** The explicit instantiations at the end of the source file. *)
Inductive instantiation : Type :=
  | Lagrange_1_1 | Lagrange_1_2 | Lagrange_1_3
  | Lagrange_2_2 | Lagrange_2_3 | Lagrange_3_3.

Definition dim_of (I : instantiation) : nat :=
  match I with
  | Lagrange_1_1 | Lagrange_1_2 | Lagrange_1_3 => 1
  | Lagrange_2_2 | Lagrange_2_3 => 2
  | Lagrange_3_3 => 3
  end.

Definition spacedim_of (I : instantiation) : nat :=
  match I with
  | Lagrange_1_1 => 1
  | Lagrange_1_2 | Lagrange_2_2 => 2
  | Lagrange_1_3 | Lagrange_2_3 | Lagrange_3_3 => 3
  end.

Module Lagrange.

Record t : Type := mk {
  inst : instantiation;
  base : JacobianCalculator;
  d_n_nodes : nat;
  (** [d_dphi[node_n][q][d]] *)
  d_dphi : list (list (list double))
}.

Definition dphi_at (T : list (list (list double))) (node_n q d : nat) : double :=
  at_ (default [] (default [] (T !! node_n) !! q)) d.

Definition new `{LibMesh} (I : instantiation) (quad_key : key_type) : outcome t :=
  let dim := dim_of I in
  let b := JacobianCalculator_new quad_key in
  let n_nodes := get_n_nodes (get0 (d_quad_key b)) in
  TBOX_ASSERT n_nodes_bounded (n_nodes <=? max_n_nodes) ;;
  let elem_type := get0 (d_quad_key b) in
  let dphi :=
    fmap (fun node_n =>
      fmap (fun q =>
        fmap (fun d =>
               shape_deriv dim elem_type (get_default_order elem_type)
                 node_n d (Point_at (d_quad_points b) q))
            (seq 0 dim))
        (seq 0 (length (d_quad_points b))))
      (seq 0 n_nodes) in
  Returned {| inst := I; base := b; d_n_nodes := n_nodes; d_dphi := dphi |}.

(** [xs[i][j] = elem->point(i)(j)] for the element's nodes. *)
Definition node_coordinates (c : t) (elem : Elem) : matrix :=
  tabulate (d_n_nodes c) (spacedim_of (inst c))
    (fun i j => coord (point elem i) j).

(** The accumulation of [contravariant] at quadrature point [q]. *)
Definition contravariant (c : t) (xs : matrix) (q : nat) : matrix :=
  let dim := dim_of (inst c) in
  let spacedim := spacedim_of (inst c) in
  for_loop (d_n_nodes c) (fun node_n =>
    for_loop spacedim (fun i =>
      for_loop dim (fun j F =>
        mat_set F i j
          (mat_get F i j + mat_get xs node_n i * dphi_at (d_dphi c) node_n q j)%float)))
    (zeros spacedim dim).

(** From [contravariant] to [J]: the determinant, or the square root of
    the determinant of the metric. *)
Definition measure (I : instantiation) (F : matrix) : outcome double :=
  let dim := dim_of I in
  let spacedim := spacedim_of I in
  if dim =? spacedim then determinant spacedim dim F
  else
    let dx_t :=
      for_loop spacedim (fun i =>
        for_loop dim (fun j T => mat_set T j i (mat_get F i j)))
        (zeros dim spacedim) in
    let Jac :=
      for_loop dim (fun i =>
        for_loop dim (fun j Jac =>
          for_loop spacedim (fun k Jac =>
            mat_set Jac i j
              (mat_get Jac i j + mat_get dx_t i k * mat_get dx_t j k)%float)
            (mat_set Jac i j 0%float)))
        (zeros dim dim) in
    d <- determinant dim dim Jac ;;
    Returned (sqrt d).

Definition J_at (c : t) (xs : matrix) (q : nat) : outcome double :=
  measure (inst c) (contravariant c xs q).

Definition set_base (c : t) (b : JacobianCalculator) : t :=
  {| inst := inst c; base := b; d_n_nodes := d_n_nodes c; d_dphi := d_dphi c |}.

Definition get_JxW (c : t) (elem : Elem) : outcome t :=
  JxW <- check_type_and_copy (base c) elem ;;
  let xs := node_coordinates c elem in
  JxW <- for_loopM (length JxW) (fun q JxW =>
           J <- J_at c xs q ;;
           TBOX_ASSERT J_positive (0 <? J)%float ;;
           Returned (scale_at q J JxW)) JxW ;;
  Returned (set_base c (set_JxW (base c) JxW)).

End Lagrange.

(** ** Quad9 *)

(** [std::round] of a double, as an integer: halfway cases go away from
    zero. *)
Definition std_round (x : double) : Z :=
  match Prim2SF x with
  | S754_finite s m e =>
      let magnitude :=
        match e with
        | Zneg p => (Zpos m + 2 ^ (Zpos p - 1)) / 2 ^ Zpos p
        | _ => Zpos m * 2 ^ e
        end%Z in
      if s then (- magnitude)%Z else magnitude
  | _ => 0%Z
  end.

(** [static_cast<std::size_t>(std::round(std::sqrt(n)))] for a size [n]. *)
Definition round_sqrt (n : nat) : nat :=
  Z.to_nat (std_round (sqrt (of_uint63 (Uint63.of_Z (Z.of_nat n))))).

Module Quad9.

Record t : Type := mk {
  base : JacobianCalculator;
  d_n_oned_q_points : nat;
  d_phi : matrix;
  d_dphi : matrix
}.

Definition ibamr_to_libmesh_ordering (i : nat) : nat :=
  match i with
  | 0 => 0
  | 1 => 2
  | _ => 1
  end.

(** [oned_points[q] = d_quad_points[q](0)] *)
Definition oned_points_of (quad_points : list Point) (n : nat) : list Point :=
  fmap (fun q => Point1 (coord (Point_at quad_points q) 0)) (seq 0 n).

(** The two nested loops that verify the tensor-product ordering; the
    state is the counter [q]. *)
Definition verify_tensor_product `{LibMesh} (quad_points oned_points : list Point)
    (n : nat) : outcome nat :=
  for_loopM n (fun j =>
    for_loopM n (fun i q =>
      TBOX_ASSERT tensor_product_point
        (Point_eq (Point_at quad_points q)
           (Point2 (coord (Point_at oned_points i) 0)
                   (coord (Point_at oned_points j) 0))) ;;
      Returned (S q)))
    0.

Definition new `{LibMesh} (quad_key : key_type) : outcome t :=
  let b := JacobianCalculator_new quad_key in
  let n := round_sqrt (length (d_quad_points b)) in
  TBOX_ASSERT oned_points_square (n * n =? length (d_quad_points b)) ;;
  let oned_points := oned_points_of (d_quad_points b) n in
  verify_tensor_product (d_quad_points b) oned_points n ;;
  let phi :=
    tabulate 3 (length oned_points) (fun i q =>
      shape 1 EDGE3 SECOND (ibamr_to_libmesh_ordering i) (Point_at oned_points q)) in
  let dphi :=
    tabulate 3 (length oned_points) (fun i q =>
      shape_deriv 1 EDGE3 SECOND (ibamr_to_libmesh_ordering i) 0
        (Point_at oned_points q)) in
  Returned {| base := b; d_n_oned_q_points := n; d_phi := phi; d_dphi := dphi |}.

(** [points[i][j]]: the element's nodes on the logical 3 by 3 grid. *)
Definition grid_node (i j : nat) : nat :=
  match i, j with
  | 0, 0 => 0 | 0, 1 => 4 | 0, _ => 1
  | 1, 0 => 7 | 1, 1 => 8 | 1, _ => 5
  | _, 0 => 3 | _, 1 => 6 | _, _ => 2
  end.

Definition n_oned_shape_functions : nat := 3.

(** The accumulation of the 2 by 2 array [Jac] at quadrature point [q]. *)
Definition Jac_at (c : t) (xs ys : matrix) (q : nat) : matrix :=
  let q_point_x := q mod d_n_oned_q_points c in
  let q_point_y := q / d_n_oned_q_points c in
  for_loop n_oned_shape_functions (fun i =>
    for_loop n_oned_shape_functions (fun j Jac =>
      let Jac := mat_set Jac 0 0
        (mat_get Jac 0 0
         + mat_get xs i j * mat_get (d_dphi c) j q_point_x * mat_get (d_phi c) i q_point_y)%float in
      let Jac := mat_set Jac 0 1
        (mat_get Jac 0 1
         + mat_get xs i j * mat_get (d_phi c) j q_point_x * mat_get (d_dphi c) i q_point_y)%float in
      let Jac := mat_set Jac 1 0
        (mat_get Jac 1 0
         + mat_get ys i j * mat_get (d_dphi c) j q_point_x * mat_get (d_phi c) i q_point_y)%float in
      mat_set Jac 1 1
        (mat_get Jac 1 1
         + mat_get ys i j * mat_get (d_phi c) j q_point_x * mat_get (d_dphi c) i q_point_y)%float))
    (zeros 2 2).

Definition J_at (c : t) (xs ys : matrix) (q : nat) : double :=
  let Jac := Jac_at c xs ys q in
  (mat_get Jac 0 0 * mat_get Jac 1 1 - mat_get Jac 0 1 * mat_get Jac 1 0)%float.

Definition set_base (c : t) (b : JacobianCalculator) : t :=
  {| base := b; d_n_oned_q_points := d_n_oned_q_points c;
     d_phi := d_phi c; d_dphi := d_dphi c |}.

Definition get_JxW (c : t) (elem : Elem) : outcome t :=
  JxW <- check_type_and_copy (base c) elem ;;
  let xs := tabulate 3 3 (fun i j => coord (point elem (grid_node i j)) 0) in
  let ys := tabulate 3 3 (fun i j => coord (point elem (grid_node i j)) 1) in
  JxW <- for_loopM (length JxW) (fun q JxW =>
           let J := J_at c xs ys q in
           TBOX_ASSERT J_positive (0 <? J)%float ;;
           Returned (scale_at q J JxW)) JxW ;;
  Returned (set_base c (set_JxW (base c) JxW)).

End Quad9.

(** ** The calculators behind the virtual [get_JxW] *)

Inductive Calculator : Type :=
  | LagrangeCalc (c : Lagrange.t)
  | Tri3Calc (c : JacobianCalculator)
  | Quad4Calc (c : JacobianCalculator)
  | Quad9Calc (c : Quad9.t)
  | Tet4Calc (c : JacobianCalculator).

Definition base_of (c : Calculator) : JacobianCalculator :=
  match c with
  | LagrangeCalc c => Lagrange.base c
  | Quad9Calc c => Quad9.base c
  | Tri3Calc c | Quad4Calc c | Tet4Calc c => c
  end.

Definition fmap_outcome {A B : Type} (f : A -> B) (m : outcome A) : outcome B :=
  x <- m ;; Returned (f x).

Definition get_JxW (c : Calculator) (elem : Elem) : outcome Calculator :=
  match c with
  | LagrangeCalc c => fmap_outcome LagrangeCalc (Lagrange.get_JxW c elem)
  | Tri3Calc c => fmap_outcome Tri3Calc (Tri3_get_JxW c elem)
  | Quad4Calc c => fmap_outcome Quad4Calc (Quad4_get_JxW c elem)
  | Quad9Calc c => fmap_outcome Quad9Calc (Quad9.get_JxW c elem)
  | Tet4Calc c => fmap_outcome Tet4Calc (Tet4_get_JxW c elem)
  end.

(** The sequence behind the reference a call hands back. *)
Definition JxW_of (c : Calculator) : list double := d_JxW (base_of c).

(** ** The contract of [jxw], in the words of the specification *)

(** [sum_over n f]: the sum of [f 0], ..., [f (n-1)], taken in that order. *)
Definition sum_over (n : nat) (f : nat -> double) : double :=
  fold_left (fun acc k => (acc + f k)%float) (seq 0 n) 0%float.

(** [F[i][j] = sum_n X[n][i] * G[n][q][j]], the contravariant map
    derivative at quadrature point [q]. *)
Definition F_spec (n_nodes : nat) (X : nat -> nat -> double)
    (G : nat -> nat -> nat -> double) (q i j : nat) : double :=
  sum_over n_nodes (fun n => (X n i * G n q j)%float).

Definition det2 (a b c d : double) : double := (a * d - b * c)%float.

(** The determinant by cofactor expansion along the first column. *)
Definition det_spec (n : nat) (A : nat -> nat -> double) : double :=
  let a00 := A 0 0 in let a01 := A 0 1 in let a02 := A 0 2 in
  let a10 := A 1 0 in let a11 := A 1 1 in let a12 := A 1 2 in
  let a20 := A 2 0 in let a21 := A 2 1 in let a22 := A 2 2 in
  match n with
  | 1 => a00
  | 2 => det2 a00 a01 a10 a11
  | 3 => (a00 * det2 a11 a12 a21 a22
          - a10 * det2 a01 a02 a21 a22
          + a20 * det2 a01 a02 a11 a12)%float
  | _ => 0%float
  end.

(** [M[a][b] = sum_i F[i][a] * F[i][b]], the metric of the map. *)
Definition metric_spec (spacedim : nat) (F : nat -> nat -> double)
    (a b : nat) : double :=
  sum_over spacedim (fun i => (F i a * F i b)%float).

(** [detmap]: [det F] when [dim = spacedim], the square root of the
    determinant of the metric otherwise. *)
Definition detmap_spec (dim spacedim : nat) (F : nat -> nat -> double) : double :=
  if dim =? spacedim then det_spec dim F
  else sqrt (det_spec dim (metric_spec spacedim F)).

(** [detmap] at quadrature point [q] of the rule of [quad_key], for the
    element [elem] in a space of dimension [spacedim_of I]. *)
Definition detmap_at `{LibMesh} (I : instantiation) (quad_key : key_type)
    (elem : Elem) (q : nat) : double :=
  let elem_type := get0 quad_key in
  let xi := get_points (get1 quad_key) (get_dim elem_type) (get2 quad_key) elem_type in
  detmap_spec (dim_of I) (spacedim_of I)
    (F_spec (get_n_nodes elem_type)
       (fun n i => coord (point elem n) i)
       (fun n q j =>
          shape_deriv (dim_of I) elem_type (get_default_order elem_type) n j
            (Point_at xi q))
       q).

(** A calculator that its constructor made for [quad_key], whatever its
    buffer holds after earlier calls. *)
Definition Lagrange_ready `{LibMesh} (I : instantiation) (quad_key : key_type)
    (c : Lagrange.t) : Prop :=
  exists c0 JxW,
    Lagrange.new I quad_key = Returned c0 /\
    length JxW = length (d_quad_weights (Lagrange.base c0)) /\
    c = Lagrange.set_base c0 (set_JxW (Lagrange.base c0) JxW).

(** [Q], the number of weights of the rule of a calculator. *)
Definition n_quad (c : JacobianCalculator) : nat := length (d_quad_weights c).

(** The buffer has the size the constructor gave it. *)
Definition buffer_sized (c : JacobianCalculator) : Prop :=
  length (d_JxW c) = length (d_quad_weights c).

(** Two calculators that differ at most in what their buffers hold. *)
Definition same_but_buffer (c1 c2 : Calculator) : Prop :=
  match c1, c2 with
  | LagrangeCalc a, LagrangeCalc b =>
      Lagrange.inst a = Lagrange.inst b /\
      Lagrange.d_n_nodes a = Lagrange.d_n_nodes b /\
      Lagrange.d_dphi a = Lagrange.d_dphi b /\
      set_JxW (Lagrange.base a) [] = set_JxW (Lagrange.base b) []
  | Quad9Calc a, Quad9Calc b =>
      Quad9.d_n_oned_q_points a = Quad9.d_n_oned_q_points b /\
      Quad9.d_phi a = Quad9.d_phi b /\
      Quad9.d_dphi a = Quad9.d_dphi b /\
      set_JxW (Quad9.base a) [] = set_JxW (Quad9.base b) []
  | Tri3Calc a, Tri3Calc b
  | Quad4Calc a, Quad4Calc b
  | Tet4Calc a, Tet4Calc b => set_JxW a [] = set_JxW b []
  | _, _ => False
  end.

(** The map determinant a calculator computes at quadrature point [q]; the
    computation aborts when the determinant helper does. *)
Definition J_of (c : Calculator) (elem : Elem) (q : nat) : outcome double :=
  match c with
  | LagrangeCalc c => Lagrange.J_at c (Lagrange.node_coordinates c elem) q
  | Tri3Calc _ => Returned (Tri3_J elem)
  | Quad4Calc c =>
      Returned (Quad4_J (Quad4_constants elem) (Point_at (d_quad_points c) q))
  | Quad9Calc c =>
      Returned (Quad9.J_at c
        (tabulate 3 3 (fun i j => coord (point elem (Quad9.grid_node i j)) 0))
        (tabulate 3 3 (fun i j => coord (point elem (Quad9.grid_node i j)) 1)) q)
  | Tet4Calc _ => Returned (Tet4_J elem)
  end.

(** ** A small reference backend, to run the calculators *)

Module Backend.

Definition dim (t : ElemType) : nat :=
  match t with
  | EDGE2 | EDGE3 => 1
  | TRI3 | TRI6 | QUAD4 | QUAD9 => 2
  | TET4 | TET10 | HEX8 | HEX27 => 3
  end.

Definition n_nodes (t : ElemType) : nat :=
  match t with
  | EDGE2 => 2 | EDGE3 => 3 | TRI3 => 3 | TRI6 => 6 | QUAD4 => 4
  | QUAD9 => 9 | TET4 => 4 | TET10 => 10 | HEX8 => 8 | HEX27 => 27
  end.

Definition default_order (t : ElemType) : Order :=
  match t with
  | EDGE2 | TRI3 | QUAD4 | TET4 | HEX8 => FIRST
  | _ => SECOND
  end.

Definition g : double := (1 / sqrt 3)%float.

(** Gauss rules: one point up to first order, otherwise the two-point
    rule and its tensor products; on the triangle three points at second
    order and six points above. *)
Definition rule (d : nat) (order : Order) (t : ElemType)
    : list (Point * double) :=
  let third := (1 / 3)%float in
  let sixth := (1 / 6)%float in
  let mg := (- g)%float in
  let a1 := 0.445948490915965%float in
  let b1 := 0.108103018168070%float in
  let w1 := (0.223381589678011 / 2)%float in
  let a2 := 0.091576213509771%float in
  let b2 := 0.816847572980459%float in
  let w2 := (0.109951743655322 / 2)%float in
  match t, order with
  | (EDGE2 | EDGE3), (0 | 1) => [(Point1 0%float, 2%float)]
  | (EDGE2 | EDGE3), _ => [(Point1 mg, 1%float); (Point1 g, 1%float)]
  | (TRI3 | TRI6), (0 | 1) => [(Point2 third third, 0.5%float)]
  | (TRI3 | TRI6), 2 =>
      [(Point2 (2 / 3)%float sixth, sixth);
       (Point2 sixth (2 / 3)%float, sixth);
       (Point2 sixth sixth, sixth)]
  | (TRI3 | TRI6), _ =>
      [(Point2 a1 a1, w1); (Point2 a1 b1, w1); (Point2 b1 a1, w1);
       (Point2 a2 a2, w2); (Point2 a2 b2, w2); (Point2 b2 a2, w2)]
  | (QUAD4 | QUAD9), (0 | 1) => [(Point2 0%float 0%float, 4%float)]
  | (QUAD4 | QUAD9), _ =>
      [(Point2 mg mg, 1%float); (Point2 g mg, 1%float);
       (Point2 mg g, 1%float); (Point2 g g, 1%float)]
  | TET4, _ => [(mkPoint 0.25%float 0.25%float 0.25%float, sixth)]
  | _, _ => []
  end.

(** First-order Lagrange shape functions on EDGE2, TRI3 and QUAD4 and
    second-order ones on EDGE3. *)
Definition N (t : ElemType) (node : nat) (p : Point) : double :=
  let xi := coord p 0 in
  let eta := coord p 1 in
  match t, node with
  | EDGE2, 0 => (0.5 * (1 - xi))%float
  | EDGE2, _ => (0.5 * (1 + xi))%float
  | EDGE3, 0 => (0.5 * xi * (xi - 1))%float
  | EDGE3, 1 => (0.5 * xi * (xi + 1))%float
  | EDGE3, _ => (1 - xi * xi)%float
  | TRI3, 0 => (1 - xi - eta)%float
  | TRI3, 1 => xi
  | TRI3, _ => eta
  | QUAD4, 0 => (0.25 * (1 - xi) * (1 - eta))%float
  | QUAD4, 1 => (0.25 * (1 + xi) * (1 - eta))%float
  | QUAD4, 2 => (0.25 * (1 + xi) * (1 + eta))%float
  | QUAD4, _ => (0.25 * (1 - xi) * (1 + eta))%float
  | _, _ => 0%float
  end.

Definition dN (t : ElemType) (node d : nat) (p : Point) : double :=
  let xi := coord p 0 in
  let eta := coord p 1 in
  match t, node, d with
  | EDGE2, 0, _ => (-0.5)%float
  | EDGE2, _, _ => 0.5%float
  | EDGE3, 0, _ => (xi - 0.5)%float
  | EDGE3, 1, _ => (xi + 0.5)%float
  | EDGE3, _, _ => (-2 * xi)%float
  | TRI3, 0, _ => (-1)%float
  | TRI3, 1, 0 => 1%float
  | TRI3, 1, _ => 0%float
  | TRI3, _, 0 => 0%float
  | TRI3, _, _ => 1%float
  | QUAD4, 0, 0 => (-0.25 * (1 - eta))%float
  | QUAD4, 0, _ => (-0.25 * (1 - xi))%float
  | QUAD4, 1, 0 => (0.25 * (1 - eta))%float
  | QUAD4, 1, _ => (-0.25 * (1 + xi))%float
  | QUAD4, 2, 0 => (0.25 * (1 + eta))%float
  | QUAD4, 2, _ => (0.25 * (1 + xi))%float
  | QUAD4, _, 0 => (-0.25 * (1 + eta))%float
  | QUAD4, _, _ => (0.25 * (1 - xi))%float
  | _, _, _ => 0%float
  end.

Definition Point_eqb (p r : Point) : bool :=
  (px p =? px r)%float && (py p =? py r)%float && (pz p =? pz r)%float.

#[export] Instance lib : LibMesh := {|
  get_dim := dim;
  get_n_nodes := n_nodes;
  get_default_order := default_order;
  get_points := fun _ d order t => fmap fst (rule d order t);
  get_weights := fun _ d order t => fmap snd (rule d order t);
  shape := fun _ t _ node p => N t node p;
  shape_deriv := fun _ t _ node d p => dN t node d p;
  max_n_nodes := 27;
  Point_eq := Point_eqb
|}.

(** An element from the list of its nodes. *)
Definition elem_of (t : ElemType) (nodes : list Point) : Elem :=
  mkElem t (Point_at nodes).

End Backend.

(** ** Closed forms of the specification for the Tri3 and Quad4 kernels *)


(** [a = 1/4 (-u0 + u1 + u2 - u3)], [b = 1/4 (-u0 - u1 + u2 + u3)],
    [c = 1/4 (u0 - u1 + u2 - u3)] *)
Definition coef_a (u0 u1 u2 u3 : double) : double :=
  (0.25 * (- u0 + u1 + u2 - u3))%float.
Definition coef_b (u0 u1 u2 u3 : double) : double :=
  (0.25 * (- u0 - u1 + u2 + u3))%float.
Definition coef_c (u0 u1 u2 u3 : double) : double :=
  (0.25 * (u0 - u1 + u2 - u3))%float.

(** [J = (a1 + c1 eta)(b2 + c2 xi) - (b1 + c1 xi)(a2 + c2 eta)] *)
Definition Quad4_J_spec (a1 b1 c1 a2 b2 c2 xi eta : double) : double :=
  ((a1 + c1 * eta) * (b2 + c2 * xi) - (b1 + c1 * xi) * (a2 + c2 * eta))%float.

(** ** Which [determinant] a call selects *)

(** The sizes that have a specialisation. *)
Definition specialised (M N : nat) : bool :=
  match M, N with
  | 1, 1 | 2, 2 | 3, 3 => true
  | _, _ => false
  end.

(** The sizes [M, N] at which [get_JxW] of an instantiation calls
    [determinant]: on [contravariant[spacedim][dim]] and on
    [Jac[dim][dim]].  Both calls are compiled for every instantiation. *)
Definition determinant_instances (I : instantiation) : list (nat * nat) :=
  [(spacedim_of I, dim_of I); (dim_of I, dim_of I)].

(** All quadrature weights are strictly positive. *)
Definition positive_weights (c : JacobianCalculator) : Prop :=
  forall w, w ∈ d_quad_weights c -> (0 <? w)%float = true.

(** Two elements with the same type and the same nodes. *)
Definition same_nodes (e1 e2 : Elem) : Prop :=
  type e1 = type e2 /\ forall i, point e1 i = point e2 i.

(** The quotient [jxw[q] / w_q] a caller would form. *)
Definition ratio (c : JacobianCalculator) (q : nat) : double :=
  (at_ (d_JxW c) q / at_ (d_quad_weights c) q)%float.

(** The size at which the call of [determinant] that [get_JxW] executes
    is made: the other call is compiled and never run. *)
Definition determinant_executed (I : instantiation) : nat * nat :=
  if dim_of I =? spacedim_of I then (spacedim_of I, dim_of I)
  else (dim_of I, dim_of I).

(** The rule of a key: [Q] points and [Q] weights. *)
Definition rule_well_formed `{LibMesh} (quad_key : key_type) : Prop :=
  let elem_type := get0 quad_key in
  length (get_points (get1 quad_key) (get_dim elem_type) (get2 quad_key) elem_type)
  = length (get_weights (get1 quad_key) (get_dim elem_type) (get2 quad_key) elem_type).

(** The tensor-product condition on the rule of a key, for the Quad9
    calculator: [Q = Q1 * Q1] and point [j * Q1 + i] is [(p_i, p_j)]. *)
Definition tensor_product_rule `{LibMesh} (quad_key : key_type) : Prop :=
  let pts := d_quad_points (JacobianCalculator_new quad_key) in
  let Q1 := round_sqrt (length pts) in
  let p i := coord (Point_at pts i) 0 in
  Q1 * Q1 = length pts /\
  forall i j, i < Q1 -> j < Q1 ->
    Point_eq (Point_at pts (j * Q1 + i)) (Point2 (p i) (p j)) = true.

(** ** Concrete calculators and elements *)

Module Samples.
Import Backend.

Definition tri3_first : JacobianCalculator :=
  JacobianCalculator_new (TRI3, QGAUSS, FIRST).
Definition tri3_second : JacobianCalculator :=
  JacobianCalculator_new (TRI3, QGAUSS, SECOND).
Definition quad4_second : JacobianCalculator :=
  JacobianCalculator_new (QUAD4, QGAUSS, SECOND).
Definition tet4_first : JacobianCalculator :=
  JacobianCalculator_new (TET4, QGAUSS, FIRST).

(** The triangle (0,0), (2,0), (0,3). *)
Definition triangle_2_3 : Elem :=
  elem_of TRI3 [Point2 0%float 0%float; Point2 2%float 0%float;
                Point2 0%float 3%float].

(** The same triangle with its last two nodes exchanged. *)
Definition triangle_inverted : Elem :=
  elem_of TRI3 [Point2 0%float 0%float; Point2 0%float 3%float;
                Point2 2%float 0%float].

(** The rectangle (0,0), (2,0), (2,1), (0,1). *)
Definition rectangle_2_1 : Elem :=
  elem_of QUAD4 [Point2 0%float 0%float; Point2 2%float 0%float;
                 Point2 2%float 1%float; Point2 0%float 1%float].

(** The unit tetrahedron. *)
Definition unit_tet : Elem :=
  elem_of TET4 [mkPoint 0%float 0%float 0%float; mkPoint 1%float 0%float 0%float;
                mkPoint 0%float 1%float 0%float; mkPoint 0%float 0%float 1%float].

(** The segment from (0,0,0) to (1,2,2). *)
Definition segment_3d : Elem :=
  elem_of EDGE2 [mkPoint 0%float 0%float 0%float; mkPoint 1%float 2%float 2%float].

(** The generic calculator for segments in space, with the one-point
    rule. *)
Definition segment_calculator : Lagrange.t :=
  match Lagrange.new Lagrange_1_3 (EDGE2, QGAUSS, FIRST) with
  | Returned c => c
  | Aborted _ => Lagrange.mk Lagrange_1_3 (JacobianCalculator_new (EDGE2, QGAUSS, FIRST)) 0 []
  end.

(** [2^-537], whose square [2^-1074] is the least positive double. *)
Definition tiny : double := Eval vm_compute in Z.ldexp 1%float (-537)%Z.

(** The right triangle with legs of length [2^-537]. *)
Definition tiny_triangle : Elem :=
  elem_of TRI3 [Point2 0%float 0%float; Point2 tiny 0%float;
                Point2 0%float tiny].

Definition tri3_fourth : JacobianCalculator :=
  JacobianCalculator_new (TRI3, QGAUSS, 4).

(** The triangle (0,0), (5,0), (0,5). *)
Definition triangle_5_5 : Elem :=
  elem_of TRI3 [Point2 0%float 0%float; Point2 5%float 0%float;
                Point2 0%float 5%float].

End Samples.

(** ** The common shape of the loops over quadrature points *)

(** A calculator with its buffer replaced. *)
Definition with_JxW (c : Calculator) (JxW : list double) : Calculator :=
  match c with
  | LagrangeCalc c => LagrangeCalc (Lagrange.set_base c (set_JxW (Lagrange.base c) JxW))
  | Tri3Calc c => Tri3Calc (set_JxW c JxW)
  | Quad4Calc c => Quad4Calc (set_JxW c JxW)
  | Quad9Calc c => Quad9Calc (Quad9.set_base c (set_JxW (Quad9.base c) JxW))
  | Tet4Calc c => Tet4Calc (set_JxW c JxW)
  end.

(** One iteration: compute [J], assert [J > 0.0], scale entry [q]. *)
Definition scale_body (Jq : nat -> outcome double) (q : nat)
    (JxW : list double) : outcome (list double) :=
  J <- Jq q ;;
  TBOX_ASSERT J_positive (0 <? J)%float ;;
  Returned (scale_at q J JxW).

(** Every [get_JxW] is: check the type, copy the weights, then run the
    kernel on the buffer. *)
Definition kernel (c : Calculator) (elem : Elem) (JxW : list double)
    : outcome (list double) :=
  match c with
  | Tri3Calc _ | Tet4Calc _ =>
      J <- J_of c elem 0 ;;
      TBOX_ASSERT J_positive (0 <? J)%float ;;
      Returned (scale_all J JxW)
  | _ => for_each (seq 0 (length JxW)) (scale_body (J_of c elem)) JxW
  end.


Arguments Tri3_J : simpl never.
Arguments Tet4_J : simpl never.
Arguments Quad4_J : simpl never.
Arguments Quad4_constants : simpl never.
Arguments Lagrange.J_at : simpl never.
Arguments Lagrange.measure : simpl never.
Arguments Lagrange.contravariant : simpl never.
Arguments Lagrange.node_coordinates : simpl never.
Arguments Quad9.J_at : simpl never.
Arguments Quad9.Jac_at : simpl never.
Arguments J_of : simpl never.
Arguments kernel : simpl never.
Arguments scale_body : simpl never.
Arguments std_copy : simpl never.
Arguments tabulate : simpl never.
Arguments for_loop : simpl never.

(** ** Further notions, for the properties of the constructors and kernels *)

(** The calculators that evaluate [J] once, before touching the buffer. *)
Definition is_affine (c : Calculator) : bool :=
  match c with
  | Tri3Calc _ | Tet4Calc _ => true
  | _ => false
  end.

(** A double that is not a number. *)
Definition is_nan (x : double) : Prop := Prim2SF x = S754_nan.


(** A sum over the 3 by 3 grid with one accumulator, rows first. *)
Definition sum_grid (t : nat -> nat -> double) : double :=
  for_loop 3 (fun i => for_loop 3 (fun j acc => (acc + t i j)%float)) 0%float.

(** The determinant of the biquadratic map at the point [(p_qx, p_qy)] of
    a tensor-product rule: [N a i] and [dN a i] are the 1-D shape function
    [a] and its derivative at [p_i], [X] and [Y] the coordinates of the
    nodes on the grid. *)
Definition Quad9_J_closed (N dN : nat -> nat -> double)
    (X Y : nat -> nat -> double) (qx qy : nat) : double :=
  let J00 := sum_grid (fun i j => (X i j * dN j qx * N i qy)%float) in
  let J01 := sum_grid (fun i j => (X i j * N j qx * dN i qy)%float) in
  let J10 := sum_grid (fun i j => (Y i j * dN j qx * N i qy)%float) in
  let J11 := sum_grid (fun i j => (Y i j * N j qx * dN i qy)%float) in
  (J00 * J11 - J01 * J10)%float.

(** [Quad9_J_closed] for the rule of [quad_key] and the nodes of [elem],
    at quadrature point [q]. *)
Definition Quad9_J_at `{LibMesh} (quad_key : key_type) (elem : Elem) (q : nat)
    : double :=
  let pts := d_quad_points (JacobianCalculator_new quad_key) in
  let Q1 := round_sqrt (length pts) in
  let p i := Point1 (coord (Point_at pts i) 0) in
  Quad9_J_closed
    (fun a i => shape 1 EDGE3 SECOND (Quad9.ibamr_to_libmesh_ordering a) (p i))
    (fun a i => shape_deriv 1 EDGE3 SECOND (Quad9.ibamr_to_libmesh_ordering a) 0 (p i))
    (fun i j => coord (point elem (Quad9.grid_node i j)) 0)
    (fun i j => coord (point elem (Quad9.grid_node i j)) 1)
    (q mod Q1) (q / Q1).

(** A Quad9 calculator that its constructor made for [quad_key], whatever
    its buffer holds after earlier calls. *)
Definition Quad9_ready `{LibMesh} (quad_key : key_type) (c : Quad9.t) : Prop :=
  exists c0 JxW,
    Quad9.new quad_key = Returned c0 /\
    length JxW = length (d_quad_weights (Quad9.base c0)) /\
    c = Quad9.set_base c0 (set_JxW (Quad9.base c0) JxW).

(** A table with [n] rows of [m] entries. *)
Definition table_shape {A : Type} (n m : nat) (T : list (list A)) : Prop :=
  length T = n /\ forall row, row ∈ T -> length row = m.

(** [r] is the integer nearest to the square root of [Q]. *)
Definition nearest_sqrt (Q r : Z) : bool :=
  ((4 * Q <? (2 * r + 1) * (2 * r + 1)) &&
   ((r =? 0) || ((2 * r - 1) * (2 * r - 1) <? 4 * Q)))%Z.

(** The Quad9 calculator with the 2 by 2 Gauss rule, and the unit square
    with its mid-side and centre nodes. *)
Definition quad9_calculator : Quad9.t :=
  match Quad9.new (H := Backend.lib) (QUAD9, QGAUSS, SECOND) with
  | Returned c => c
  | Aborted _ =>
      Quad9.mk (JacobianCalculator_new (H := Backend.lib) (QUAD9, QGAUSS, SECOND)) 0 [] []
  end.

Definition unit_square9 : Elem :=
  Backend.elem_of QUAD9
    [Point2 0%float 0%float; Point2 1%float 0%float; Point2 1%float 1%float;
     Point2 0%float 1%float; Point2 0.5%float 0%float; Point2 1%float 0.5%float;
     Point2 0.5%float 1%float; Point2 0%float 0.5%float; Point2 0.5%float 0.5%float].

(** A double that is a zero or not a number. *)
Definition zero_or_nan (x : double) : Prop :=
  match Prim2SF x with
  | S754_zero _ | S754_nan => True
  | _ => False
  end.

(** Nodes [i] and [j] of an element have the same [x] and [y], bit for
    bit. *)
Definition coincide_xy (elem : Elem) (i j : nat) : Prop :=
  coord (point elem i) 0 = coord (point elem j) 0 /\
  coord (point elem i) 1 = coord (point elem j) 1.

(** A triangle with a NaN coordinate. *)
Definition nan_triangle : Elem :=
  Backend.elem_of TRI3 [Point2 0%float 0%float; Point2 (0 / 0)%float 0%float;
                        Point2 0%float 1%float].

(** A triangle whose nodes 0 and 1 coincide. *)
Definition flat_triangle : Elem :=
  Backend.elem_of TRI3 [Point2 1%float 1%float; Point2 1%float 1%float;
                        Point2 0%float 1%float].

Arguments sum_grid : simpl never.
Arguments Quad9_J_closed : simpl never.

(** * Properties *)

(** ** The calculators at work *)

(** The sequence a call hands back, when it returns. *)
Example Tri3_reference_triangle :
  fmap_outcome d_JxW
    (Tri3_get_JxW Samples.tri3_first
       (Backend.elem_of TRI3 [Point2 0%float 0%float; Point2 1%float 0%float;
                              Point2 0%float 1%float]))
  = Returned [0.5%float].
Proof. reflexivity. Qed.

Example Tri3_triangle_2_3 :
  fmap_outcome d_JxW (Tri3_get_JxW Samples.tri3_first Samples.triangle_2_3)
  = Returned [3%float].
Proof. reflexivity. Qed.

Example Tri3_inverted_triangle :
  Tri3_get_JxW Samples.tri3_first Samples.triangle_inverted
  = Aborted (AssertionFailed J_positive).
Proof. reflexivity. Qed.

Example Tet4_unit_tetrahedron :
  fmap_outcome d_JxW (Tet4_get_JxW Samples.tet4_first Samples.unit_tet)
  = Returned [(1 / 6)%float].
Proof. reflexivity. Qed.

Example Quad4_rectangle :
  fmap_outcome d_JxW (Quad4_get_JxW Samples.quad4_second Samples.rectangle_2_1)
  = Returned [0.5%float; 0.5%float; 0.5%float; 0.5%float].
Proof. reflexivity. Qed.

Example Quad4_wrong_type :
  Quad4_get_JxW Samples.quad4_second Samples.triangle_2_3
  = Aborted (AssertionFailed elem_type_is_key_type).
Proof. reflexivity. Qed.

(** A segment from (0,0,0) to (1,2,2): the manifold path gives its
    length. *)
Example Lagrange_segment_in_space :
  fmap_outcome (fun c => d_JxW (Lagrange.base c))
    (Lagrange.get_JxW Samples.segment_calculator Samples.segment_3d)
  = Returned [3%float].
Proof. reflexivity. Qed.

Example round_sqrt_values :
  (round_sqrt 0, round_sqrt 1, round_sqrt 4, round_sqrt 7, round_sqrt 9, round_sqrt 12)
  = (0, 1, 2, 3, 3, 3).
Proof. reflexivity. Qed.

Example Quad9_needs_a_square_rule :
  Quad9.new (H := Backend.lib) (TRI3, QGAUSS, SECOND)
  = Aborted (AssertionFailed oned_points_square).
Proof. reflexivity. Qed.

Example Quad9_accepts_the_tensor_rule :
  returned (Quad9.new (H := Backend.lib) (QUAD9, QGAUSS, SECOND)) = true.
Proof. reflexivity. Qed.

(** ** Facts about binary64 comparisons and products *)

Lemma Prim2SF_zero : Prim2SF 0%float = S754_zero false.
Proof. reflexivity. Qed.

(** A double above zero is its own absolute value. *)
Lemma abs_of_positive (x : double) :
  (0 <? x)%float = true -> abs x = x.
Proof.
  intros Hx. apply Prim2SF_inj. rewrite abs_spec.
  rewrite ltb_spec, Prim2SF_zero in Hx.
  destruct (Prim2SF x) as [s|s| |s m e]; try destruct s; simpl in *;
    try discriminate; reflexivity.
Qed.

(** [J <= 0.0] excludes [J > 0.0]. *)
Lemma nonpositive_not_positive (x : double) :
  (x <=? 0)%float = true -> (0 <? x)%float = false.
Proof.
  rewrite leb_spec, ltb_spec, Prim2SF_zero.
  destruct (Prim2SF x) as [s|s| |s m e]; try destruct s; simpl;
    try discriminate; reflexivity.
Qed.

(** Shifting a mantissa to the right keeps it non-negative. *)
Lemma shr_1_nonneg (mrs : shr_record) :
  (0 <= shr_m mrs)%Z -> (0 <= shr_m (shr_1 mrs))%Z.
Proof.
  destruct mrs as [m r s]; simpl. intros Hm.
  destruct m as [|p|p]; simpl; try lia; destruct p; simpl; lia.
Qed.

Lemma iter_shr_1_nonneg (p : positive) (mrs : shr_record) :
  (0 <= shr_m mrs)%Z -> (0 <= shr_m (SpecFloat.iter_pos shr_1 p mrs))%Z.
Proof.
  revert mrs. induction p as [p IH|p IH|]; intros mrs Hm; simpl.
  - apply IH, IH, shr_1_nonneg, Hm.
  - apply IH, IH, Hm.
  - apply shr_1_nonneg, Hm.
Qed.

Lemma shr_record_of_loc_m (m : Z) (l : location) :
  shr_m (shr_record_of_loc m l) = m.
Proof. destruct l as [|[]]; reflexivity. Qed.

Lemma shr_fexp_nonneg (m e : Z) (l : location) :
  (0 <= m)%Z -> (0 <= shr_m (fst (shr_fexp prec emax m e l)))%Z.
Proof.
  intros Hm. unfold shr_fexp, shr.
  destruct (fexp prec emax (Zdigits2 m + e) - e)%Z; simpl;
    try (rewrite shr_record_of_loc_m; exact Hm).
  apply iter_shr_1_nonneg. rewrite shr_record_of_loc_m. exact Hm.
Qed.

Lemma round_nearest_even_nonneg (m : Z) (l : location) :
  (0 <= m)%Z -> (0 <= round_nearest_even m l)%Z.
Proof.
  intros Hm. unfold round_nearest_even.
  destruct l as [|[]]; try destruct (Z.even m); lia.
Qed.

(** Rounding a positive exact value gives zero, a positive finite number
    or plus infinity. *)
Lemma binary_round_aux_positive (m : positive) (e : Z) (l : location) :
  SFleb (S754_zero false) (binary_round_aux prec emax false (Zpos m) e l) = true.
Proof.
  unfold binary_round_aux.
  pose proof (shr_fexp_nonneg (Zpos m) e l ltac:(lia)) as H1.
  destruct (shr_fexp prec emax (Z.pos m) e l) as [mrs' e'] eqn:E1. simpl in H1.
  pose proof (shr_fexp_nonneg
    (round_nearest_even (shr_m mrs') (loc_of_shr_record mrs')) e' loc_Exact
    (round_nearest_even_nonneg _ _ H1)) as H2.
  destruct (shr_fexp prec emax _ e' loc_Exact) as [mrs'' e''] eqn:E2. simpl in H2.
  destruct (shr_m mrs'') as [|p|p]; try lia; try reflexivity.
  destruct (e'' <=? emax - prec)%Z; reflexivity.
Qed.

(** The product of two doubles above zero is never below zero, and never
    a NaN. *)
Lemma mul_positive_nonneg (x y : double) :
  (0 <? x)%float = true -> (0 <? y)%float = true -> (0 <=? x * y)%float = true.
Proof.
  rewrite !ltb_spec, leb_spec, mul_spec, Prim2SF_zero.
  unfold SF64mul.
  destruct (Prim2SF x) as [sx|sx| |sx mx ex]; try destruct sx; simpl;
    try discriminate; intros _;
    destruct (Prim2SF y) as [sy|sy| |sy my ey]; try destruct sy; simpl;
    try discriminate; intros _; try reflexivity.
  apply binary_round_aux_positive.
Qed.

(** ** Arrays and loops *)

Lemma for_loop_S {St : Type} (n : nat) (body : nat -> St -> St) (s : St) :
  for_loop (S n) body s = body n (for_loop n body s).
Proof. unfold for_loop. rewrite seq_S, fold_left_app. reflexivity. Qed.

Lemma std_copy_sized (src dst : list double) :
  length dst = length src -> std_copy src dst = src.
Proof.
  intros Hlen. unfold std_copy. rewrite drop_ge by lia. apply app_nil_r.
Qed.

Lemma at_lookup (v : list double) (i : nat) :
  i < length v -> v !! i = Some (at_ v i).
Proof.
  intros Hi. unfold at_. destruct (v !! i) eqn:E; [reflexivity|].
  apply lookup_ge_None in E. lia.
Qed.

Lemma tabulate_ext (M N : nat) (f g : nat -> nat -> double) :
  (forall i j, f i j = g i j) -> tabulate M N f = tabulate M N g.
Proof.
  intros Hfg. unfold tabulate. apply list_fmap_ext. intros _ i _.
  apply list_fmap_ext. intros _ j _. apply Hfg.
Qed.

Lemma mat_get_tabulate (M N : nat) (f : nat -> nat -> double) (i j : nat) :
  i < M -> j < N -> mat_get (tabulate M N f) i j = f i j.
Proof.
  intros Hi Hj. unfold mat_get, at_, tabulate.
  rewrite list_lookup_fmap, lookup_seq_lt by exact Hi. simpl.
  rewrite list_lookup_fmap, lookup_seq_lt by exact Hj. reflexivity.
Qed.

Lemma Point_at_map_seq (f : nat -> Point) (n i : nat) :
  i < n -> Point_at (f <$> seq 0 n) i = f i.
Proof.
  intros Hi. unfold Point_at.
  rewrite list_lookup_fmap, lookup_seq_lt by exact Hi. reflexivity.
Qed.

Lemma sum_over_ext (n : nat) (f g : nat -> double) :
  (forall k, k < n -> f k = g k) -> sum_over n f = sum_over n g.
Proof.
  unfold sum_over. generalize 0%float as acc.
  induction n as [|n IH]; intros acc Hfg; [reflexivity|].
  rewrite !seq_S, !fold_left_app. simpl.
  rewrite IH by (intros k Hk; apply Hfg; lia).
  rewrite Hfg by lia. reflexivity.
Qed.

(** *** Loops that scale one entry per iteration *)

Section ScaleLoop.
Variable Jq : nat -> outcome double.

Lemma scale_at_length (q : nat) (J : double) (JxW : list double) :
  length (scale_at q J JxW) = length JxW.
Proof. apply length_insert. Qed.

(** What a loop that returned has done. *)
Lemma for_each_scale_returned (l : list nat) :
  NoDup l ->
  forall JxW JxW',
    (forall q, q ∈ l -> q < length JxW) ->
    for_each l (scale_body Jq) JxW = Returned JxW' ->
    length JxW' = length JxW /\
    (forall q, q ∈ l ->
       exists J, Jq q = Returned J /\ (0 <? J)%float = true /\
                 JxW' !! q = Some (at_ JxW q * J)%float) /\
    (forall q, q ∉ l -> JxW' !! q = JxW !! q).
Proof.
  induction 1 as [|i l Hi Hnd IH]; intros JxW JxW' Hrange Hrun.
  - simpl in Hrun. injection Hrun as <-. split; [reflexivity|].
    split; [intros q Hq; inversion Hq | reflexivity].
  - simpl in Hrun. unfold scale_body at 1 in Hrun.
    destruct (Jq i) as [J|f] eqn:EJ; simpl in Hrun; [|discriminate].
    destruct (0 <? J)%float eqn:Epos; simpl in Hrun; [|discriminate].
    assert (Hi_lt : i < length JxW) by (apply Hrange; left).
    destruct (IH (scale_at i J JxW) JxW') as (Hlen & Hin & Hout).
    { intros q Hq. rewrite scale_at_length. apply Hrange. now right. }
    { exact Hrun. }
    rewrite scale_at_length in Hlen.
    split; [exact Hlen|]. split.
    + intros q Hq. apply elem_of_cons in Hq as [->|Hq].
      * exists J. split; [exact EJ|]. split; [exact Epos|].
        rewrite (Hout i Hi). unfold scale_at.
        apply list_lookup_insert_eq. exact Hi_lt.
      * destruct (Hin q Hq) as (J' & EJ' & Epos' & Hq').
        exists J'. split; [exact EJ'|]. split; [exact Epos'|].
        rewrite Hq'. unfold at_, scale_at.
        rewrite list_lookup_insert_ne; [reflexivity|].
        intros ->. contradiction.
    + intros q Hq. rewrite Hout by (intros Hq'; apply Hq; now right).
      unfold scale_at. apply list_lookup_insert_ne.
      intros ->. apply Hq. left.
Qed.

(** The loop returns when every [J] it meets is above zero. *)
Lemma for_each_scale_total (l : list nat) (JxW : list double) :
  (forall q, q ∈ l -> exists J, Jq q = Returned J /\ (0 <? J)%float = true) ->
  exists JxW', for_each l (scale_body Jq) JxW = Returned JxW'.
Proof.
  revert JxW. induction l as [|i l IH]; intros JxW Hall.
  - eexists. reflexivity.
  - destruct (Hall i) as (J & EJ & Epos); [left|].
    simpl. unfold scale_body at 1. rewrite EJ. simpl. rewrite Epos. simpl.
    apply IH. intros q Hq. apply Hall. now right.
Qed.

(** The only failures of the loop: the assertion on [J], or a failure
    of the computation of [J]. *)
Lemma for_each_scale_aborted (l : list nat) (JxW : list double) (f : failure) :
  for_each l (scale_body Jq) JxW = Aborted f ->
  f = AssertionFailed J_positive \/ exists q, Jq q = Aborted f.
Proof.
  revert JxW. induction l as [|i l IH]; intros JxW Hrun; [discriminate|].
  simpl in Hrun. unfold scale_body at 1 in Hrun.
  destruct (Jq i) as [J|f'] eqn:EJ; simpl in Hrun.
  - destruct (0 <? J)%float; simpl in Hrun.
    + eapply IH, Hrun.
    + left. congruence.
  - right. exists i. congruence.
Qed.
End ScaleLoop.

Lemma for_each_ext {St : Type} (l : list nat) (body1 body2 : nat -> St -> outcome St)
    (s : St) :
  (forall q s, q ∈ l -> body1 q s = body2 q s) ->
  for_each l body1 s = for_each l body2 s.
Proof.
  revert s. induction l as [|i l IH]; intros s Hext; [reflexivity|].
  simpl. rewrite Hext by left.
  destruct (body2 i s); simpl; [|reflexivity].
  apply IH. intros q s' Hq. apply Hext. now right.
Qed.

Lemma scale_all_lookup (J : double) (JxW : list double) (q : nat) :
  q < length JxW -> scale_all J JxW !! q = Some (at_ JxW q * J)%float.
Proof.
  intros Hq. unfold scale_all. rewrite list_lookup_fmap, (at_lookup _ _ Hq).
  reflexivity.
Qed.

(** ** One view of the five [get_JxW] *)

(** A run of one calculator, seen through the virtual [get_JxW]. *)
Ltac lift_run H := unfold get_JxW, fmap_outcome; rewrite H; reflexivity.

Lemma check_type_and_copy_returned (c : JacobianCalculator) (elem : Elem)
    (JxW : list double) :
  check_type_and_copy c elem = Returned JxW <->
  type elem = get0 (d_quad_key c) /\
  JxW = std_copy (d_quad_weights c) (d_JxW c).
Proof.
  unfold check_type_and_copy, TBOX_ASSERT.
  destruct (bool_decide_reflect (type elem = get0 (d_quad_key c))) as [Ht|Ht];
    simpl; split.
  - intros [= <-]. auto.
  - intros [_ ->]. reflexivity.
  - discriminate.
  - intros [Ht' _]. contradiction.
Qed.

Lemma check_type_and_copy_mismatch (c : JacobianCalculator) (elem : Elem) :
  type elem <> get0 (d_quad_key c) ->
  check_type_and_copy c elem = Aborted (AssertionFailed elem_type_is_key_type).
Proof.
  intros Ht. unfold check_type_and_copy, TBOX_ASSERT.
  rewrite bool_decide_eq_false_2 by exact Ht. reflexivity.
Qed.

Lemma check_type_and_copy_match (c : JacobianCalculator) (elem : Elem) :
  type elem = get0 (d_quad_key c) ->
  check_type_and_copy c elem = Returned (std_copy (d_quad_weights c) (d_JxW c)).
Proof. intros Ht. apply check_type_and_copy_returned. auto. Qed.

Lemma get_JxW_kernel (c : Calculator) (elem : Elem) :
  get_JxW c elem =
  (JxW <- check_type_and_copy (base_of c) elem ;;
   JxW' <- kernel c elem JxW ;;
   Returned (with_JxW c JxW')).
Proof.
  destruct c as [c|c|c|c|c];
    unfold get_JxW, fmap_outcome, Lagrange.get_JxW, Tri3_get_JxW, Quad4_get_JxW,
      Quad9.get_JxW, Tet4_get_JxW, base_of, kernel, with_JxW, for_loopM;
    (destruct (check_type_and_copy _ elem) as [JxW|f]; cbn [bind];
     [|reflexivity]).
  - destruct (for_each _ _ JxW); reflexivity.
  - unfold J_of. cbn [bind]. destruct (TBOX_ASSERT _ _); reflexivity.
  - rewrite (for_each_ext _ _ (scale_body (J_of (Quad4Calc c) elem)))
      by (intros; unfold scale_body, J_of; cbn [bind]; reflexivity).
    destruct (for_each _ _ JxW); reflexivity.
  - rewrite (for_each_ext _ _ (scale_body (J_of (Quad9Calc c) elem)))
      by (intros; unfold scale_body, J_of; cbn [bind]; reflexivity).
    destruct (for_each _ _ JxW); reflexivity.
  - unfold J_of. cbn [bind]. destruct (TBOX_ASSERT _ _); reflexivity.
Qed.

(** What the kernel has done when it returned. *)
Lemma kernel_returned (c : Calculator) (elem : Elem) (JxW JxW' : list double) :
  kernel c elem JxW = Returned JxW' ->
  length JxW' = length JxW /\
  forall q, q < length JxW ->
    exists J, J_of c elem q = Returned J /\ (0 <? J)%float = true /\
              JxW' !! q = Some (at_ JxW q * J)%float.
Proof.
  assert (Hloop : for_each (seq 0 (length JxW)) (scale_body (J_of c elem)) JxW
                  = Returned JxW' ->
    length JxW' = length JxW /\
    forall q, q < length JxW ->
      exists J, J_of c elem q = Returned J /\ (0 <? J)%float = true /\
                JxW' !! q = Some (at_ JxW q * J)%float).
  { intros Hrun.
    destruct (for_each_scale_returned (J_of c elem) (seq 0 (length JxW))
                (NoDup_seq 0 _) JxW JxW') as (Hlen & Hin & _).
    - intros q Hq. apply elem_of_seq in Hq. lia.
    - exact Hrun.
    - split; [exact Hlen|]. intros q Hq. apply Hin, elem_of_seq. lia. }
  assert (Haffine : forall J0 : double,
    (forall q, J_of c elem q = Returned J0) ->
    (TBOX_ASSERT J_positive (0 <? J0)%float ;; Returned (scale_all J0 JxW))
      = Returned JxW' ->
    length JxW' = length JxW /\
    forall q, q < length JxW ->
      exists J, J_of c elem q = Returned J /\ (0 <? J)%float = true /\
                JxW' !! q = Some (at_ JxW q * J)%float).
  { intros J0 HJ Hrun. unfold TBOX_ASSERT in Hrun.
    destruct (0 <? J0)%float eqn:Epos; simpl in Hrun; [|discriminate].
    injection Hrun as <-. split.
    - unfold scale_all. apply length_fmap.
    - intros q Hq. exists J0. split; [apply HJ|]. split; [exact Epos|].
      apply scale_all_lookup, Hq. }
  destruct c as [c|c|c|c|c]; unfold kernel; try exact Hloop.
  - apply (Haffine (Tri3_J elem)). reflexivity.
  - apply (Haffine (Tet4_J elem)). reflexivity.
Qed.

Lemma get_JxW_returned (c c' : Calculator) (elem : Elem) :
  get_JxW c elem = Returned c' ->
  type elem = get0 (d_quad_key (base_of c)) /\
  exists JxW',
    c' = with_JxW c JxW' /\
    kernel c elem (std_copy (d_quad_weights (base_of c)) (d_JxW (base_of c)))
      = Returned JxW'.
Proof.
  rewrite get_JxW_kernel.
  destruct (check_type_and_copy (base_of c) elem) as [JxW|f] eqn:Ecopy;
    simpl; [|discriminate].
  apply check_type_and_copy_returned in Ecopy as [Ht ->].
  destruct (kernel c elem _) as [JxW'|f] eqn:Ek; simpl; [|discriminate].
  intros [= <-]. split; [exact Ht|]. exists JxW'. auto.
Qed.

Lemma base_of_with_JxW (c : Calculator) (JxW : list double) :
  base_of (with_JxW c JxW) = set_JxW (base_of c) JxW.
Proof. destruct c; reflexivity. Qed.

Lemma same_base_fields (a b : JacobianCalculator) :
  set_JxW a [] = set_JxW b [] ->
  d_quad_key a = d_quad_key b /\
  d_quad_points a = d_quad_points b /\
  d_quad_weights a = d_quad_weights b.
Proof. destruct a, b. unfold set_JxW. simpl. intros [= -> -> ->]. auto. Qed.

Lemma same_base_set_JxW (a b : JacobianCalculator) (JxW : list double) :
  set_JxW a [] = set_JxW b [] -> set_JxW a JxW = set_JxW b JxW.
Proof.
  intros H. apply same_base_fields in H as (Hk & Hp & Hw).
  unfold set_JxW. rewrite Hk, Hp, Hw. reflexivity.
Qed.

Lemma same_but_buffer_base (c1 c2 : Calculator) :
  same_but_buffer c1 c2 ->
  set_JxW (base_of c1) [] = set_JxW (base_of c2) [].
Proof.
  destruct c1, c2; simpl; try contradiction; try tauto.
Qed.

Lemma with_JxW_same (c1 c2 : Calculator) (JxW : list double) :
  same_but_buffer c1 c2 -> with_JxW c1 JxW = with_JxW c2 JxW.
Proof.
  destruct c1 as [a|a|a|a|a], c2 as [b|b|b|b|b]; simpl; try contradiction.
  - intros (Hi & Hn & Hd & Hb). unfold Lagrange.set_base.
    rewrite Hi, Hn, Hd, (same_base_set_JxW _ _ JxW Hb). reflexivity.
  - intros Hb. rewrite (same_base_set_JxW _ _ JxW Hb). reflexivity.
  - intros Hb. rewrite (same_base_set_JxW _ _ JxW Hb). reflexivity.
  - intros (Hn & Hp & Hd & Hb). unfold Quad9.set_base.
    rewrite Hn, Hp, Hd, (same_base_set_JxW _ _ JxW Hb). reflexivity.
  - intros Hb. rewrite (same_base_set_JxW _ _ JxW Hb). reflexivity.
Qed.

Lemma with_JxW_same_but_buffer (c : Calculator) (JxW : list double) :
  same_but_buffer c (with_JxW c JxW).
Proof. destruct c; simpl; auto. Qed.

(** [J] depends on the calculator's tables and on the element's nodes
    only. *)
Lemma J_of_same (c1 c2 : Calculator) (e1 e2 : Elem) (q : nat) :
  same_but_buffer c1 c2 -> same_nodes e1 e2 -> J_of c1 e1 q = J_of c2 e2 q.
Proof.
  intros Hc [_ Hp].
  destruct c1 as [a|a|a|a|a], c2 as [b|b|b|b|b]; simpl in Hc;
    try contradiction; unfold J_of.
  - destruct Hc as (Hi & Hn & Hd & _).
    unfold Lagrange.J_at, Lagrange.contravariant, Lagrange.node_coordinates.
    rewrite Hi, Hn, Hd.
    rewrite (tabulate_ext _ _ (fun i j => coord (point e1 i) j)
               (fun i j => coord (point e2 i) j))
      by (intros; rewrite Hp; reflexivity).
    reflexivity.
  - unfold Tri3_J. rewrite !Hp. reflexivity.
  - apply same_base_fields in Hc as (_ & Hq & _).
    unfold Quad4_constants. rewrite !Hp, Hq. reflexivity.
  - destruct Hc as (Hn & Hphi & Hd & _).
    unfold Quad9.J_at, Quad9.Jac_at. rewrite Hn, Hphi, Hd.
    rewrite (tabulate_ext 3 3 (fun i j => coord (point e1 (Quad9.grid_node i j)) 0)
               (fun i j => coord (point e2 (Quad9.grid_node i j)) 0))
      by (intros; rewrite Hp; reflexivity).
    rewrite (tabulate_ext 3 3 (fun i j => coord (point e1 (Quad9.grid_node i j)) 1)
               (fun i j => coord (point e2 (Quad9.grid_node i j)) 1))
      by (intros; rewrite Hp; reflexivity).
    reflexivity.
  - unfold Tet4_J. rewrite !Hp. reflexivity.
Qed.

Lemma kernel_same (c1 c2 : Calculator) (e1 e2 : Elem) (JxW : list double) :
  same_but_buffer c1 c2 -> same_nodes e1 e2 ->
  kernel c1 e1 JxW = kernel c2 e2 JxW.
Proof.
  intros Hc He.
  assert (HJ : forall q, J_of c1 e1 q = J_of c2 e2 q)
    by (intros q; apply J_of_same; assumption).
  assert (Hloop : for_each (seq 0 (length JxW)) (scale_body (J_of c1 e1)) JxW
                  = for_each (seq 0 (length JxW)) (scale_body (J_of c2 e2)) JxW).
  { apply for_each_ext. intros q s _. unfold scale_body. rewrite HJ. reflexivity. }
  destruct c1, c2; simpl in Hc; try contradiction; unfold kernel;
    try exact Hloop; rewrite HJ; reflexivity.
Qed.

(** The determinant never fails inside an instantiated calculator. *)
Lemma measure_returns (I : instantiation) (F : matrix) :
  exists J, Lagrange.measure I F = Returned J.
Proof.
  destruct I; unfold Lagrange.measure, determinant;
    cbn [dim_of spacedim_of Nat.eqb bind]; eexists; reflexivity.
Qed.

Lemma J_of_returns (c : Calculator) (elem : Elem) (q : nat) :
  exists J, J_of c elem q = Returned J.
Proof.
  destruct c; unfold J_of; try (eexists; reflexivity).
  unfold Lagrange.J_at. apply measure_returns.
Qed.

Lemma kernel_aborted (c : Calculator) (elem : Elem) (JxW : list double)
    (f : failure) :
  kernel c elem JxW = Aborted f -> f = AssertionFailed J_positive.
Proof.
  assert (Hloop : for_each (seq 0 (length JxW)) (scale_body (J_of c elem)) JxW
                  = Aborted f -> f = AssertionFailed J_positive).
  { intros Hrun. apply for_each_scale_aborted in Hrun as [Hf|[q Hq]]; [exact Hf|].
    destruct (J_of_returns c elem q) as [J HJ]. congruence. }
  assert (Haffine : forall J0 : double,
    (TBOX_ASSERT J_positive (0 <? J0)%float ;; Returned (scale_all J0 JxW))
      = Aborted f -> f = AssertionFailed J_positive).
  { intros J0. unfold TBOX_ASSERT. destruct (0 <? J0)%float; simpl; congruence. }
  destruct c; unfold kernel; try exact Hloop; unfold J_of; cbn [bind];
    apply Haffine.
Qed.

(** The constructor sizes the buffer, and a call keeps its size. *)
Lemma JacobianCalculator_new_sized `{LibMesh} (quad_key : key_type) :
  buffer_sized (JacobianCalculator_new quad_key).
Proof. unfold buffer_sized, JacobianCalculator_new. simpl. apply length_replicate. Qed.

Lemma returned_length (c c' : Calculator) (elem : Elem) :
  buffer_sized (base_of c) ->
  get_JxW c elem = Returned c' ->
  length (JxW_of c') = n_quad (base_of c).
Proof.
  intros Hsized Hrun.
  apply get_JxW_returned in Hrun as (_ & JxW' & -> & Hk).
  apply kernel_returned in Hk as [Hlen _].
  rewrite std_copy_sized in Hlen by exact Hsized.
  unfold JxW_of. rewrite base_of_with_JxW. exact Hlen.
Qed.

(** * The claims *)

(** ** C5: the type precondition *)

(** C5.  For each of the five calculators, [get_JxW] on an element whose
    type differs from the element type of the calculator's key fails on
    the type assertion; when the types agree, that assertion is never the
    reason of a failure. *)
Theorem C5_type_contract (c : Calculator) (elem : Elem) :
  (type elem <> get0 (d_quad_key (base_of c)) ->
   get_JxW c elem = Aborted (AssertionFailed elem_type_is_key_type)) /\
  (type elem = get0 (d_quad_key (base_of c)) ->
   get_JxW c elem <> Aborted (AssertionFailed elem_type_is_key_type)).
Proof.
  rewrite get_JxW_kernel. split; intros Ht.
  - rewrite check_type_and_copy_mismatch by exact Ht. reflexivity.
  - rewrite check_type_and_copy_match by exact Ht. cbn [bind].
    destruct (kernel c elem _) as [JxW'|f] eqn:Ek; cbn [bind]; [discriminate|].
    apply kernel_aborted in Ek. rewrite Ek. discriminate.
Qed.

Lemma C5_type_contract_witness :
  get_JxW (Tri3Calc Samples.tri3_first) Samples.rectangle_2_1
    = Aborted (AssertionFailed elem_type_is_key_type) /\
  get_JxW (Tri3Calc Samples.tri3_first) Samples.triangle_2_3
    <> Aborted (AssertionFailed elem_type_is_key_type).
Proof.
  split.
  - apply (proj1 (C5_type_contract _ _)). discriminate.
  - apply (proj2 (C5_type_contract _ _)). reflexivity.
Defined.

(** ** C10: what a call changes *)

(** C10.  A call that returns leaves the key, the quadrature points, the
    quadrature weights and the tables of the calculator as they were: only
    the buffer differs.  The sequence handed back has exactly [Q] entries,
    [Q] being the number of weights, for a buffer of the size the
    constructor gave it. *)
Theorem C10_frame (c c' : Calculator) (elem : Elem) :
  buffer_sized (base_of c) ->
  get_JxW c elem = Returned c' ->
  same_but_buffer c c' /\
  d_quad_key (base_of c') = d_quad_key (base_of c) /\
  d_quad_points (base_of c') = d_quad_points (base_of c) /\
  d_quad_weights (base_of c') = d_quad_weights (base_of c) /\
  length (JxW_of c') = n_quad (base_of c).
Proof.
  intros Hsized Hrun.
  apply get_JxW_returned in Hrun as (_ & JxW' & -> & Hk).
  apply kernel_returned in Hk as [Hlen _].
  rewrite std_copy_sized in Hlen by exact Hsized.
  split; [apply with_JxW_same_but_buffer|].
  unfold JxW_of. rewrite base_of_with_JxW. simpl. auto.
Qed.

Lemma C10_frame_witness :
  exists c',
    get_JxW (Quad4Calc Samples.quad4_second) Samples.rectangle_2_1 = Returned c' /\
    d_quad_weights (base_of c') = d_quad_weights Samples.quad4_second /\
    length (JxW_of c') = 4.
Proof.
  eexists. split; [vm_compute; reflexivity|].
  pose proof (C10_frame (Quad4Calc Samples.quad4_second) _ Samples.rectangle_2_1
                eq_refl eq_refl) as (_ & _ & _ & Hw & Hlen).
  split; [exact Hw | exact Hlen].
Defined.

(** ** C7: repeated calls *)

Lemma get_JxW_same (c1 c2 : Calculator) (e1 e2 : Elem) :
  same_but_buffer c1 c2 ->
  buffer_sized (base_of c1) ->
  buffer_sized (base_of c2) ->
  same_nodes e1 e2 ->
  get_JxW c1 e1 = get_JxW c2 e2.
Proof.
  intros Hc H1 H2 He. rewrite !get_JxW_kernel.
  pose proof (same_but_buffer_base _ _ Hc) as Hb.
  destruct (same_base_fields _ _ Hb) as (Hkey & _ & Hw).
  assert (Hcopy : check_type_and_copy (base_of c1) e1
                  = check_type_and_copy (base_of c2) e2).
  { unfold check_type_and_copy.
    rewrite (std_copy_sized _ _ H1), (std_copy_sized _ _ H2).
    rewrite Hkey, Hw. destruct He as [-> _]. reflexivity. }
  rewrite Hcopy.
  destruct (check_type_and_copy (base_of c2) e2) as [JxW|f]; cbn [bind];
    [|reflexivity].
  rewrite (kernel_same c1 c2 e1 e2 JxW Hc He).
  destruct (kernel c2 e2 JxW) as [JxW'|f]; cbn [bind]; [|reflexivity].
  rewrite (with_JxW_same c1 c2 JxW' Hc). reflexivity.
Qed.

(** C7.  The result of [get_JxW] is a function of the calculator's key,
    rule and tables and of the element's type and nodes: two calculators
    that differ only in what their buffers hold, called on two elements
    with the same nodes, end in the same state, hand back the same
    sequence, or fail alike.  In particular a second call, on the
    calculator the first call left behind, hands back the same sequence
    again. *)
Theorem C7_deterministic (c1 c2 : Calculator) (e1 e2 : Elem) :
  same_but_buffer c1 c2 ->
  buffer_sized (base_of c1) ->
  buffer_sized (base_of c2) ->
  same_nodes e1 e2 ->
  get_JxW c1 e1 = get_JxW c2 e2 /\
  (forall c', get_JxW c1 e1 = Returned c' -> get_JxW c' e2 = Returned c').
Proof.
  intros Hc H1 H2 He. split; [apply get_JxW_same; assumption|].
  intros c' Hrun. rewrite <- Hrun.
  pose proof (returned_length c1 c' e1 H1 Hrun) as Hlen.
  apply get_JxW_returned in Hrun as (_ & JxW' & -> & _).
  symmetry. apply get_JxW_same.
  - apply with_JxW_same_but_buffer.
  - exact H1.
  - unfold buffer_sized. unfold JxW_of in Hlen.
    rewrite base_of_with_JxW in *. exact Hlen.
  - exact He.
Qed.

Lemma C7_deterministic_witness :
  get_JxW (Tri3Calc Samples.tri3_second) Samples.triangle_2_3
  = get_JxW (Tri3Calc (set_JxW Samples.tri3_second [7%float; 8%float; 9%float]))
      (mkElem TRI3 (fun i => point Samples.triangle_2_3 i)).
Proof.
  apply C7_deterministic.
  - reflexivity.
  - reflexivity.
  - reflexivity.
  - split; reflexivity.
Defined.

(** ** C6: non-positive determinants *)

(** The values of a returned sequence: the weights, each multiplied by a
    [J] above zero. *)
Lemma get_JxW_values (c c' : Calculator) (elem : Elem) :
  buffer_sized (base_of c) ->
  get_JxW c elem = Returned c' ->
  forall q, q < n_quad (base_of c) ->
    exists J, J_of c elem q = Returned J /\ (0 <? J)%float = true /\
      JxW_of c' !! q = Some (at_ (d_quad_weights (base_of c)) q * J)%float.
Proof.
  intros Hsized Hrun q Hq.
  apply get_JxW_returned in Hrun as (_ & JxW' & -> & Hk).
  apply kernel_returned in Hk as [_ Hval].
  rewrite std_copy_sized in Hval by exact Hsized.
  unfold JxW_of. rewrite base_of_with_JxW. simpl. apply Hval, Hq.
Qed.

(** C6, as the code has it.  In each of the five calculators a computed
    [J <= 0.0] at a quadrature point makes [get_JxW] fail instead of
    returning.  When the weights are above zero, a returned sequence has
    [Q] values and the value at [q] is the product of the weight [w_q],
    above zero, and of the [J] computed at [q], above zero; such a
    product is never below zero and never a NaN (it is zero when it
    underflows). *)
Theorem C6_nonpositive_J_fatal (c : Calculator) (elem : Elem) :
  buffer_sized (base_of c) ->
  (forall q J, q < n_quad (base_of c) ->
     J_of c elem q = Returned J -> (J <=? 0)%float = true ->
     returned (get_JxW c elem) = false) /\
  (forall c', positive_weights (base_of c) ->
     get_JxW c elem = Returned c' ->
     length (JxW_of c') = n_quad (base_of c) /\
     (forall q, q < n_quad (base_of c) ->
        exists J,
          J_of c elem q = Returned J /\
          (0 <? J)%float = true /\
          (0 <? at_ (d_quad_weights (base_of c)) q)%float = true /\
          JxW_of c' !! q = Some (at_ (d_quad_weights (base_of c)) q * J)%float) /\
     (forall x, x ∈ JxW_of c' -> (0 <=? x)%float = true)).
Proof.
  intros Hsized. split.
  - intros q J Hq HJ Hneg.
    destruct (get_JxW c elem) as [c'|f] eqn:Hrun; [|reflexivity].
    destruct (get_JxW_values c c' elem Hsized Hrun q Hq) as (J' & HJ' & Hpos & _).
    rewrite HJ in HJ'. injection HJ' as <-.
    rewrite (nonpositive_not_positive J Hneg) in Hpos. discriminate.
  - intros c' Hw Hrun.
    pose proof (returned_length c c' elem Hsized Hrun) as Hlen.
    assert (Hweight : forall q, q < n_quad (base_of c) ->
              (0 <? at_ (d_quad_weights (base_of c)) q)%float = true).
    { intros q Hq. apply Hw. apply list_elem_of_lookup.
      exists q. apply at_lookup, Hq. }
    split; [exact Hlen|]. split.
    + intros q Hq.
      destruct (get_JxW_values c c' elem Hsized Hrun q Hq) as (J & HJ & Hpos & Hval).
      exists J. split; [exact HJ|]. split; [exact Hpos|].
      split; [apply Hweight, Hq | exact Hval].
    + intros x Hx.
      apply list_elem_of_lookup in Hx as [q Hq].
      assert (Hlt : q < n_quad (base_of c)).
      { apply lookup_lt_Some in Hq. rewrite Hlen in Hq. exact Hq. }
      destruct (get_JxW_values c c' elem Hsized Hrun q Hlt) as (J & _ & Hpos & Hval).
      rewrite Hq in Hval. injection Hval as ->.
      apply mul_positive_nonneg; [apply Hweight, Hlt | exact Hpos].
Qed.

Lemma C6_nonpositive_J_fatal_witness :
  returned (get_JxW (Tri3Calc Samples.tri3_second) Samples.triangle_inverted) = false /\
  forall c',
    get_JxW (Tri3Calc Samples.tri3_second) Samples.triangle_2_3 = Returned c' ->
    length (JxW_of c') = 3 /\
    (exists J, (0 <? J)%float = true /\
               JxW_of c' !! 0
               = Some (at_ (d_quad_weights Samples.tri3_second) 0 * J)%float) /\
    (forall x, x ∈ JxW_of c' -> (0 <=? x)%float = true).
Proof.
  assert (Hsized : buffer_sized (base_of (Tri3Calc Samples.tri3_second)))
    by reflexivity.
  split.
  - apply (proj1 (C6_nonpositive_J_fatal _ Samples.triangle_inverted Hsized)
             1 (-6)%float).
    + vm_compute. lia.
    + reflexivity.
    + reflexivity.
  - intros c' Hrun.
    destruct (proj2 (C6_nonpositive_J_fatal _ Samples.triangle_2_3 Hsized) c')
      as (Hlen & Hval & Hnonneg).
    + intros w Hw. vm_compute in Hw.
      repeat (apply elem_of_cons in Hw as [->|Hw]; [reflexivity|]).
      inversion Hw.
    + exact Hrun.
    + split; [exact Hlen|]. split; [|exact Hnonneg].
      destruct (Hval 0) as (J & _ & Hpos & _ & Hq0).
      * vm_compute. lia.
      * exists J. split; [exact Hpos | exact Hq0].
Defined.

(** The claim as it is written fails when the product of weight and [J]
    underflows: on the right triangle with legs [2^-537] the determinant
    is [2^-1074 > 0], the weight is [0.5 > 0], and the value handed back
    is [0.0]. *)
Lemma C6_counterexample :
  ~ (forall (c c' : Calculator) (elem : Elem),
       buffer_sized (base_of c) ->
       positive_weights (base_of c) ->
       get_JxW c elem = Returned c' ->
       forall x, x ∈ JxW_of c' -> (0 <? x)%float = true).
Proof.
  intros Hclaim.
  specialize (Hclaim (Tri3Calc Samples.tri3_first)
                (Tri3Calc (set_JxW Samples.tri3_first [0%float]))
                Samples.tiny_triangle).
  assert (H0 : (0 <? 0)%float = true).
  { apply Hclaim.
    - reflexivity.
    - intros w Hw. vm_compute in Hw.
      apply elem_of_cons in Hw as [->|Hw]; [reflexivity|inversion Hw].
    - vm_compute. reflexivity.
    - vm_compute. left. }
  vm_compute in H0. discriminate.
Qed.

(** ** C2, C3, C8: the closed-form kernels *)

Lemma loop_total (c : Calculator) (elem : Elem) (JxW : list double) :
  (forall q, q < length JxW ->
     exists J, J_of c elem q = Returned J /\ (0 <? J)%float = true) ->
  exists JxW',
    for_each (seq 0 (length JxW)) (scale_body (J_of c elem)) JxW = Returned JxW'.
Proof.
  intros Hall. apply for_each_scale_total.
  intros q Hq. apply Hall. apply elem_of_seq in Hq. lia.
Qed.



(** C3.  The Quad4 calculator computes [a1, b1, c1] from the [x]
    coordinates of the four nodes and [a2, b2, c2] from the [y]
    coordinates, and a sequence it hands back holds, at each reference
    point [(xi, eta)] of weight [w],
    [w * ((a1 + c1 eta)(b2 + c2 xi) - (b1 + c1 xi)(a2 + c2 eta))].
    It returns when the type matches and every such determinant is above
    zero. *)
Theorem C3_Quad4_bilinear_J (c : JacobianCalculator) (elem : Elem) :
  buffer_sized c ->
  let x i := coord (point elem i) 0 in
  let y i := coord (point elem i) 1 in
  let a1 := coef_a (x 0) (x 1) (x 2) (x 3) in
  let b1 := coef_b (x 0) (x 1) (x 2) (x 3) in
  let c1 := coef_c (x 0) (x 1) (x 2) (x 3) in
  let a2 := coef_a (y 0) (y 1) (y 2) (y 3) in
  let b2 := coef_b (y 0) (y 1) (y 2) (y 3) in
  let c2 := coef_c (y 0) (y 1) (y 2) (y 3) in
  let J p := Quad4_J_spec a1 b1 c1 a2 b2 c2 (coord p 0) (coord p 1) in
  Quad4_constants elem = mkQuad4_coeffs a1 b1 c1 a2 b2 c2 /\
  (forall c', Quad4_get_JxW c elem = Returned c' ->
     forall q w p,
       d_quad_weights c !! q = Some w -> d_quad_points c !! q = Some p ->
       d_JxW c' !! q = Some (w * J p)%float) /\
  (type elem = get0 (d_quad_key c) ->
   (forall q, q < n_quad c -> (0 <? J (Point_at (d_quad_points c) q))%float = true) ->
   returned (Quad4_get_JxW c elem) = true).
Proof.
  intros Hsized x y a1 b1 c1 a2 b2 c2 J.
  assert (HJ : forall q, J_of (Quad4Calc c) elem q
                         = Returned (J (Point_at (d_quad_points c) q)))
    by reflexivity.
  split; [reflexivity|]. split.
  - intros c' Hrun q w p Hw Hp.
    assert (Hrun' : get_JxW (Quad4Calc c) elem = Returned (Quad4Calc c'))
      by lift_run Hrun.
    destruct (get_JxW_values (Quad4Calc c) (Quad4Calc c') elem Hsized Hrun' q)
      as (J' & HJ' & _ & Hval).
    { apply lookup_lt_Some in Hw. exact Hw. }
    rewrite HJ in HJ'. injection HJ' as <-.
    unfold JxW_of in Hval. simpl in Hval. rewrite Hval.
    unfold at_, Point_at. rewrite Hw, Hp. reflexivity.
  - intros Ht Hpos.
    assert (Hret : returned (get_JxW (Quad4Calc c) elem) = true).
    { rewrite get_JxW_kernel. cbn [base_of].
      rewrite (check_type_and_copy_match c elem Ht). cbn [bind].
      rewrite (std_copy_sized _ _ Hsized). unfold kernel.
      destruct (loop_total (Quad4Calc c) elem (d_quad_weights c)) as [JxW' ->].
      - intros q Hq. exists (J (Point_at (d_quad_points c) q)).
        split; [apply HJ | apply Hpos, Hq].
      - reflexivity. }
    unfold get_JxW, fmap_outcome in Hret.
    destruct (Quad4_get_JxW c elem); [reflexivity | exact Hret].
Qed.

Lemma C3_Quad4_bilinear_J_witness :
  returned (Quad4_get_JxW Samples.quad4_second Samples.rectangle_2_1) = true /\
  forall c', Quad4_get_JxW Samples.quad4_second Samples.rectangle_2_1 = Returned c' ->
    d_JxW c' !! 0 = Some 0.5%float.
Proof.
  pose proof (C3_Quad4_bilinear_J Samples.quad4_second Samples.rectangle_2_1 eq_refl)
    as (_ & Hval & Hret).
  split.
  - apply Hret; [reflexivity|].
    intros q Hq. change (n_quad Samples.quad4_second) with 4 in Hq.
    destruct q as [|[|[|[|q]]]]; [reflexivity .. | lia].
  - intros c' Hrun.
    exact (Hval c' Hrun 0 _ _ eq_refl eq_refl).
Defined.

(** C8, as the code has it.  The Tri3 and the Tet4 calculators evaluate
    [J] once per element, from the nodes alone, and every entry of the
    sequence they hand back is the weight at that index multiplied by this
    one [J]. *)
Theorem C8_affine_single_J (c c' : JacobianCalculator) (elem : Elem) :
  buffer_sized c ->
  (Tri3_get_JxW c elem = Returned c' ->
   forall q, q < n_quad c ->
     d_JxW c' !! q = Some (at_ (d_quad_weights c) q * Tri3_J elem)%float) /\
  (Tet4_get_JxW c elem = Returned c' ->
   forall q, q < n_quad c ->
     d_JxW c' !! q = Some (at_ (d_quad_weights c) q * Tet4_J elem)%float).
Proof.
  intros Hsized. split; intros Hrun q Hq.
  - assert (Hrun' : get_JxW (Tri3Calc c) elem = Returned (Tri3Calc c'))
      by lift_run Hrun.
    destruct (get_JxW_values (Tri3Calc c) (Tri3Calc c') elem Hsized Hrun' q Hq)
      as (J & HJ & _ & Hval).
    unfold J_of in HJ. injection HJ as <-. exact Hval.
  - assert (Hrun' : get_JxW (Tet4Calc c) elem = Returned (Tet4Calc c'))
      by lift_run Hrun.
    destruct (get_JxW_values (Tet4Calc c) (Tet4Calc c') elem Hsized Hrun' q Hq)
      as (J & HJ & _ & Hval).
    unfold J_of in HJ. injection HJ as <-. exact Hval.
Qed.

Lemma C8_affine_single_J_witness :
  d_JxW (set_JxW Samples.tri3_fourth
           (scale_all 25 (d_quad_weights Samples.tri3_fourth))) !! 0
  = Some (at_ (d_quad_weights Samples.tri3_fourth) 0 * 25)%float /\
  d_JxW (set_JxW Samples.tri3_fourth
           (scale_all 25 (d_quad_weights Samples.tri3_fourth))) !! 3
  = Some (at_ (d_quad_weights Samples.tri3_fourth) 3 * 25)%float.
Proof.
  pose proof (proj1 (C8_affine_single_J Samples.tri3_fourth _ Samples.triangle_5_5
                       eq_refl) eq_refl) as Hval.
  split; apply Hval; vm_compute; lia.
Defined.

(** The quotient [jxw[q] / w_q] itself is not the same at every [q]: on
    the triangle (0,0), (5,0), (0,5), where [J = 25], the six-point rule
    gives the quotient [25] at [q = 0] and [24.999999999999996] at
    [q = 3], because the product [w_q * J] is rounded. *)
Lemma C8_counterexample :
  ~ (forall (c c' : JacobianCalculator) (elem : Elem) (q1 q2 : nat),
       buffer_sized c ->
       Tri3_get_JxW c elem = Returned c' ->
       q1 < n_quad c -> q2 < n_quad c ->
       ratio c' q1 = ratio c' q2).
Proof.
  intros Hclaim.
  pose proof (Hclaim Samples.tri3_fourth _ Samples.triangle_5_5 0 3
                eq_refl eq_refl) as Heq.
  assert (Hne : (ratio (set_JxW Samples.tri3_fourth
                          (scale_all (Tri3_J Samples.triangle_5_5)
                             (std_copy (d_quad_weights Samples.tri3_fourth)
                                (d_JxW Samples.tri3_fourth)))) 0
                 =? 25)%float = true) by (vm_compute; reflexivity).
  rewrite Heq in Hne; [| vm_compute; lia | vm_compute; lia].
  vm_compute in Hne. discriminate.
Qed.

(** ** C9: the determinant helper *)

(** C9, as the code has it.  [determinant] has specialisations for 1 by 1,
    2 by 2 and 3 by 3 arrays only.  Any other size is accepted when the
    file is built and fails when it is called, on [TBOX_ASSERT(false)].
    In each of the six instantiations the call that [get_JxW] executes has
    a specialised size, so [get_JxW] never fails in the unspecialised
    [determinant]. *)
Theorem C9_determinant_fallback :
  (forall M N A, specialised M N = true -> returned (determinant M N A) = true) /\
  (forall M N A, specialised M N = false ->
     determinant M N A = Aborted (AssertionFailed determinant_unspecialised)) /\
  (forall I, specialised (fst (determinant_executed I))
               (snd (determinant_executed I)) = true) /\
  (forall I F, returned (Lagrange.measure I F) = true) /\
  (forall c elem,
     Lagrange.get_JxW c elem <> Aborted (AssertionFailed determinant_unspecialised)).
Proof.
  split; [|split; [|split; [|split]]].
  - intros M N A.
    destruct M as [|[|[|[|M]]]], N as [|[|[|[|N]]]]; try discriminate; reflexivity.
  - intros M N A.
    destruct M as [|[|[|[|M]]]], N as [|[|[|[|N]]]]; try discriminate; reflexivity.
  - intros I. destruct I; reflexivity.
  - intros I F. destruct (measure_returns I F) as [J ->]. reflexivity.
  - intros c elem Hrun.
    assert (Hrun' : get_JxW (LagrangeCalc c) elem
                    = Aborted (AssertionFailed determinant_unspecialised))
      by lift_run Hrun.
    rewrite get_JxW_kernel in Hrun'. unfold check_type_and_copy, TBOX_ASSERT in Hrun'.
    destruct (bool_decide _); cbn [bind] in Hrun'; [|discriminate].
    destruct (kernel _ elem _) as [JxW'|f] eqn:Ek; cbn [bind] in Hrun';
      [discriminate|].
    apply kernel_aborted in Ek. congruence.
Qed.

Lemma C9_determinant_fallback_witness :
  determinant 2 1 [[1%float]; [2%float]]
  = Aborted (AssertionFailed determinant_unspecialised).
Proof.
  exact (proj1 (proj2 C9_determinant_fallback) 2 1 _ eq_refl).
Defined.

(** The claim as it is written fails: a size without a specialisation is
    not rejected when the file is built.  The instantiation
    [LagrangeJacobianCalculator<1, 2>] compiles a call of [determinant] on
    a 2 by 1 array; that call is the unspecialised one, which fails when
    it runs. *)
Lemma C9_counterexample :
  ~ (forall I M N, (M, N) ∈ determinant_instances I -> specialised M N = true).
Proof.
  intros Hclaim.
  specialize (Hclaim Lagrange_1_2 2 1). simpl in Hclaim.
  discriminate Hclaim. left.
Qed.

(** ** C4: the construction of the Quad9 calculator *)

Section TensorCheck.
Variable P : nat -> nat -> nat -> bool.

(** The inner loop at row [j], from counter [q0]: it returns the
    advanced counter, or fails at the first point that does not match. *)
Lemma tensor_inner_loop (j n a q0 : nat) :
  let run :=
    for_each (seq a n)
      (fun i q => TBOX_ASSERT tensor_product_point (P i j q) ;; Returned (S q)) q0 in
  (run = Returned (q0 + n) /\
   forall k, k < n -> P (a + k) j (q0 + k) = true) \/
  (run = Aborted (AssertionFailed tensor_product_point) /\
   exists k, k < n /\ P (a + k) j (q0 + k) = false).
Proof.
  revert a q0. induction n as [|n IH]; intros a q0; cbv zeta.
  - left. simpl. split; [f_equal; lia | intros k Hk; lia].
  - cbn [seq for_each]. unfold TBOX_ASSERT at 1.
    destruct (P a j q0) eqn:E0; cbn [bind].
    + destruct (IH (S a) (S q0)) as [[Hrun Hall]|[Hrun (k & Hk & Hfail)]].
      * left. cbv zeta in Hrun.
        split; [etransitivity; [exact Hrun | f_equal; lia]|].
        intros [|k] Hk.
        -- rewrite !Nat.add_0_r. exact E0.
        -- replace (a + S k) with (S a + k) by lia.
           replace (q0 + S k) with (S q0 + k) by lia. apply Hall. lia.
      * right. cbv zeta in Hrun. split; [exact Hrun|].
        exists (S k). split; [lia|].
        replace (a + S k) with (S a + k) by lia.
        replace (q0 + S k) with (S q0 + k) by lia. exact Hfail.
    + right. split; [reflexivity|]. exists 0. split; [lia|].
      rewrite !Nat.add_0_r. exact E0.
Qed.

(** The two nested loops, from row [a] and counter [q0]. *)
Lemma tensor_outer_loop (n m a q0 : nat) :
  let run :=
    for_each (seq a m)
      (fun j => for_loopM n
         (fun i q => TBOX_ASSERT tensor_product_point (P i j q) ;; Returned (S q)))
      q0 in
  (run = Returned (q0 + m * n) /\
   forall k i, k < m -> i < n -> P i (a + k) (q0 + k * n + i) = true) \/
  (run = Aborted (AssertionFailed tensor_product_point) /\
   exists k i, k < m /\ i < n /\ P i (a + k) (q0 + k * n + i) = false).
Proof.
  revert a q0. induction m as [|m IH]; intros a q0; cbv zeta.
  - left. simpl. split; [f_equal; lia | intros k i Hk; lia].
  - cbn [seq for_each].
    destruct (tensor_inner_loop a n 0 q0) as [[Hrow Hall0]|[Hrow (i & Hi & Hfail)]];
      cbv zeta in Hrow;
      match goal with
      | |- context [bind ?m _] => replace m with (for_each (seq 0 n)
          (fun i q => TBOX_ASSERT tensor_product_point (P i a q) ;; Returned (S q)) q0)
          by reflexivity
      end;
      rewrite Hrow; cbn [bind].
    + destruct (IH (S a) (q0 + n)) as [[Hrun Hall]|[Hrun (k & i & Hk & Hi & Hfail)]];
        cbv zeta in Hrun.
      * left. split; [etransitivity; [exact Hrun | f_equal; lia]|].
        intros [|k] i Hk Hi.
        -- rewrite Nat.add_0_r. simpl. rewrite Nat.add_0_r. apply (Hall0 i Hi).
        -- replace (a + S k) with (S a + k) by lia.
           replace (q0 + S k * n + i) with (q0 + n + k * n + i) by lia.
           apply Hall; lia.
      * right. split; [exact Hrun|]. exists (S k), i.
        split; [lia|]. split; [exact Hi|].
        replace (a + S k) with (S a + k) by lia.
        replace (q0 + S k * n + i) with (q0 + n + k * n + i) by lia.
        exact Hfail.
    + right. split; [reflexivity|]. exists 0, i.
      split; [lia|]. split; [exact Hi|].
      rewrite Nat.add_0_r. simpl. rewrite Nat.add_0_r. exact Hfail.
Qed.
End TensorCheck.

Lemma coord_oned_points (pts : list Point) (n i : nat) :
  i < n ->
  coord (Point_at (Quad9.oned_points_of pts n) i) 0 = coord (Point_at pts i) 0.
Proof.
  intros Hi. unfold Quad9.oned_points_of.
  rewrite Point_at_map_seq by exact Hi. reflexivity.
Qed.

(** C4.  The construction of the Quad9 calculator returns exactly for the
    tensor-product rules: [Q = Q1 * Q1] for [Q1 = round(sqrt(Q))], and
    quadrature point [j * Q1 + i] equals [(p_i, p_j)], the [p_i] being the
    first coordinates of the first [Q1] points.  For any other rule it
    fails, on the assertion on [Q] or on the assertion on a point. *)
Theorem C4_Quad9_tensor_product `{LibMesh} (quad_key : key_type) :
  (returned (Quad9.new quad_key) = true <-> tensor_product_rule quad_key) /\
  (forall f, Quad9.new quad_key = Aborted f ->
     f = AssertionFailed oned_points_square \/
     f = AssertionFailed tensor_product_point) /\
  (forall c, Quad9.new quad_key = Returned c ->
     Quad9.base c = JacobianCalculator_new quad_key /\
     Quad9.d_n_oned_q_points c
     = round_sqrt (length (d_quad_points (JacobianCalculator_new quad_key)))).
Proof.
  unfold Quad9.new, tensor_product_rule.
  set (b := JacobianCalculator_new quad_key).
  set (pts := d_quad_points b).
  set (n := round_sqrt (length pts)).
  unfold TBOX_ASSERT.
  destruct (Nat.eqb_spec (n * n) (length pts)) as [Hsq|Hsq]; cbn [bind].
  2: { split; [|split].
       - split; [discriminate | intros [Hsq' _]; contradiction].
       - intros f [= <-]. left. reflexivity.
       - discriminate. }
  set (oned := Quad9.oned_points_of pts n).
  set (P := fun i j q =>
              Point_eq (Point_at pts q)
                (Point2 (coord (Point_at oned i) 0) (coord (Point_at oned j) 0))).
  change (Quad9.verify_tensor_product pts oned n)
    with (for_each (seq 0 n)
            (fun j => for_loopM n
               (fun i q => TBOX_ASSERT tensor_product_point (P i j q) ;;
                           Returned (S q))) 0).
  destruct (tensor_outer_loop P n n 0 0)
    as [[Hrun Hall]|[Hrun (k & i & Hk & Hi & Hfail)]];
    cbv zeta in Hrun; rewrite Hrun; cbn [bind]; clear Hrun.
  - split; [|split].
    + split; [|reflexivity]. intros _. split; [exact Hsq|].
      intros i j Hi Hj. specialize (Hall j i Hj Hi). unfold P in Hall.
      unfold oned in Hall. rewrite !coord_oned_points in Hall by assumption.
      exact Hall.
    + discriminate.
    + intros c [= <-]. split; reflexivity.
  - split; [|split].
    + split; [discriminate|]. intros [_ Hall].
      specialize (Hall i k Hi Hk). unfold P in Hfail.
      unfold oned in Hfail. rewrite !coord_oned_points in Hfail by assumption.
      simpl in Hfail, Hall. congruence.
    + intros f [= <-]. right. reflexivity.
    + discriminate.
Qed.

Lemma C4_Quad9_tensor_product_witness :
  returned (Quad9.new (H := Backend.lib) (QUAD9, QGAUSS, SECOND)) = true /\
  Quad9.new (H := Backend.lib) (TRI3, QGAUSS, SECOND) = Aborted (AssertionFailed oned_points_square).
Proof.
  split.
  - apply (proj1 (C4_Quad9_tensor_product _)). split; [reflexivity|].
    intros i j Hi Hj. change (round_sqrt _) with 2 in Hi, Hj.
    destruct i as [|[|i]], j as [|[|j]]; try lia; reflexivity.
  - destruct (Quad9.new (H := Backend.lib) (TRI3, QGAUSS, SECOND)) as [c|f] eqn:Hrun.
    + assert (Hret : returned (Quad9.new (H := Backend.lib) (TRI3, QGAUSS, SECOND)) = true)
        by (rewrite Hrun; reflexivity).
      apply (proj1 (C4_Quad9_tensor_product _)) in Hret as [Hsq _].
      vm_compute in Hsq. discriminate.
    + vm_compute in Hrun. exact (eq_sym Hrun).
Defined.

(** ** C1: the generic Lagrange calculator *)

Lemma sum_over_S (n : nat) (f : nat -> double) :
  sum_over (S n) f = (sum_over n f + f n)%float.
Proof. unfold sum_over. rewrite seq_S, fold_left_app. reflexivity. Qed.

Lemma tabulate_ext_in (M N : nat) (f g : nat -> nat -> double) :
  (forall i j, i < M -> j < N -> f i j = g i j) ->
  tabulate M N f = tabulate M N g.
Proof.
  intros Hfg. unfold tabulate. apply list_fmap_ext. intros ki i Hi.
  apply lookup_seq in Hi as [-> Hi].
  apply list_fmap_ext. intros kj j Hj.
  apply lookup_seq in Hj as [-> Hj].
  apply Hfg; assumption.
Qed.

Section Accumulation.
Variable I : instantiation.
Let dim := dim_of I.
Let spacedim := spacedim_of I.

Lemma zeros_tabulate :
  zeros spacedim dim = tabulate spacedim dim (fun _ _ => 0%float).
Proof using Type. subst dim spacedim. destruct I; reflexivity. Qed.

(** One pass of the two inner loops adds [x i * g j] to entry [i][j]. *)
Lemma accumulate_step (P : nat -> nat -> double) (x g : nat -> double) :
  for_loop spacedim (fun i =>
    for_loop dim (fun j F =>
      mat_set F i j (mat_get F i j + x i * g j)%float))
    (tabulate spacedim dim P)
  = tabulate spacedim dim (fun i j => (P i j + x i * g j)%float).
Proof using Type. subst dim spacedim. destruct I; reflexivity. Qed.

(** After the loop over the nodes, [contravariant] holds the sums of the
    specification. *)
Lemma accumulate_nodes (n : nat) (X : nat -> nat -> double)
    (G : nat -> nat -> double) :
  for_loop n (fun node_n =>
    for_loop spacedim (fun i =>
      for_loop dim (fun j F =>
        mat_set F i j (mat_get F i j + X node_n i * G node_n j)%float)))
    (zeros spacedim dim)
  = tabulate spacedim dim (fun i j => sum_over n (fun k => (X k i * G k j)%float)).
Proof using Type.
  induction n as [|n IH].
  - unfold for_loop. simpl. apply zeros_tabulate.
  - rewrite for_loop_S, IH.
    rewrite (accumulate_step _ (X n) (G n)).
    apply tabulate_ext. intros i j. rewrite sum_over_S. reflexivity.
Qed.

(** From the contravariant array to [detmap]. *)
Lemma measure_tabulate (F : nat -> nat -> double) :
  Lagrange.measure I (tabulate spacedim dim F)
  = Returned (detmap_spec dim spacedim F).
Proof using Type. subst dim spacedim. destruct I; reflexivity. Qed.
End Accumulation.

Lemma Lagrange_new_returned `{LibMesh} (I : instantiation) (quad_key : key_type)
    (c0 : Lagrange.t) :
  Lagrange.new I quad_key = Returned c0 ->
  Lagrange.inst c0 = I /\
  Lagrange.base c0 = JacobianCalculator_new quad_key /\
  Lagrange.d_n_nodes c0 = get_n_nodes (get0 quad_key) /\
  forall node_n q d,
    node_n < get_n_nodes (get0 quad_key) ->
    q < length (d_quad_points (JacobianCalculator_new quad_key)) ->
    d < dim_of I ->
    Lagrange.dphi_at (Lagrange.d_dphi c0) node_n q d
    = shape_deriv (dim_of I) (get0 quad_key) (get_default_order (get0 quad_key))
        node_n d (Point_at (d_quad_points (JacobianCalculator_new quad_key)) q).
Proof.
  unfold Lagrange.new, TBOX_ASSERT.
  destruct (_ <=? max_n_nodes); cbn [bind]; [|discriminate].
  intros [= <-]. cbn [Lagrange.inst Lagrange.base Lagrange.d_n_nodes Lagrange.d_dphi].
  repeat split.
  intros node_n q d Hn Hq Hd. unfold Lagrange.dphi_at, at_.
  change (d_quad_key (JacobianCalculator_new quad_key)) with quad_key.
  rewrite list_lookup_fmap, lookup_seq_lt by exact Hn. cbn [fmap option_fmap option_map default from_option id].
  rewrite list_lookup_fmap, lookup_seq_lt by exact Hq. cbn [fmap option_fmap option_map default from_option id].
  rewrite list_lookup_fmap, lookup_seq_lt by exact Hd. reflexivity.
Qed.

(** What the generic calculator computes at a quadrature point is the
    [detmap] of the specification. *)
Lemma Lagrange_J_at_detmap `{LibMesh} (I : instantiation) (quad_key : key_type)
    (c : Lagrange.t) (elem : Elem) (q : nat) :
  Lagrange_ready I quad_key c ->
  q < length (d_quad_points (JacobianCalculator_new quad_key)) ->
  Lagrange.J_at c (Lagrange.node_coordinates c elem) q
  = Returned (detmap_at I quad_key elem q).
Proof.
  intros (c0 & buf & Hnew & _ & ->) Hq.
  destruct (Lagrange_new_returned I quad_key c0 Hnew) as (Hinst & _ & Hn & Hdphi).
  unfold Lagrange.J_at, Lagrange.contravariant, Lagrange.node_coordinates.
  cbn [Lagrange.set_base Lagrange.inst Lagrange.d_n_nodes Lagrange.d_dphi].
  rewrite Hinst, Hn.
  pose proof (accumulate_nodes I (get_n_nodes (get0 quad_key))
                (mat_get (tabulate (get_n_nodes (get0 quad_key)) (spacedim_of I)
                            (fun i j => coord (point elem i) j)))
                (fun k j => Lagrange.dphi_at (Lagrange.d_dphi c0) k q j)) as Hacc.
  cbv beta in Hacc. rewrite Hacc. clear Hacc.
  rewrite (tabulate_ext_in _ _ _
             (F_spec (get_n_nodes (get0 quad_key))
                (fun n i => coord (point elem n) i)
                (fun n q j =>
                   shape_deriv (dim_of I) (get0 quad_key)
                     (get_default_order (get0 quad_key)) n j
                     (Point_at (d_quad_points (JacobianCalculator_new quad_key)) q))
                q)).
  - apply measure_tabulate.
  - intros i j Hi Hj. unfold F_spec. apply sum_over_ext. intros k Hk.
    rewrite mat_get_tabulate by assumption.
    rewrite Hdphi by assumption. reflexivity.
Qed.

(** C1.  For a generic Lagrange calculator made by its constructor, on an
    element of the key's type whose map determinant is above zero at every
    quadrature point, [get_JxW] returns a sequence of [Q] values with
    [JxW[q] = w_q * |detmap(xi_q)|], where [detmap] is [det F] when
    [dim = spacedim] and the square root of [det (F^T F)] otherwise, for
    [F[i][j] = sum_n X[n][i] * G[n][q][j]]. *)
Theorem C1_Lagrange_JxW `{LibMesh} (I : instantiation) (quad_key : key_type)
    (c : Lagrange.t) (elem : Elem) :
  Lagrange_ready I quad_key c ->
  rule_well_formed quad_key ->
  type elem = get0 quad_key ->
  let weights := d_quad_weights (Lagrange.base c) in
  (forall q, q < length weights ->
     (0 <? detmap_at I quad_key elem q)%float = true) ->
  exists c',
    Lagrange.get_JxW c elem = Returned c' /\
    length (d_JxW (Lagrange.base c')) = length weights /\
    forall q, q < length weights ->
      d_JxW (Lagrange.base c') !! q
      = Some (at_ weights q * abs (detmap_at I quad_key elem q))%float.
Proof.
  intros Hready Hrule Ht weights Hpos.
  assert (Hbase : d_quad_key (Lagrange.base c) = quad_key /\
                  weights = d_quad_weights (JacobianCalculator_new quad_key) /\
                  buffer_sized (Lagrange.base c)).
  { destruct Hready as (c0 & buf & Hnew & Hlen & ->).
    destruct (Lagrange_new_returned I quad_key c0 Hnew) as (_ & Hb & _).
    subst weights. cbn [Lagrange.set_base Lagrange.base].
    unfold buffer_sized. rewrite Hb in *. auto. }
  destruct Hbase as (Hkey & Hweights & Hsized).
  assert (HJ : forall q, q < length weights ->
            J_of (LagrangeCalc c) elem q = Returned (detmap_at I quad_key elem q)).
  { intros q Hq. unfold J_of. apply Lagrange_J_at_detmap; [exact Hready|].
    unfold rule_well_formed in Hrule. rewrite Hweights in Hq.
    unfold JacobianCalculator_new in *. cbn [d_quad_points d_quad_weights] in *.
    rewrite Hrule. exact Hq. }
  assert (Hrun : exists JxW',
            get_JxW (LagrangeCalc c) elem = Returned (with_JxW (LagrangeCalc c) JxW')).
  { rewrite get_JxW_kernel. cbn [base_of].
    rewrite check_type_and_copy_match by (rewrite Hkey; exact Ht). cbn [bind].
    rewrite (std_copy_sized _ _ Hsized). unfold kernel.
    destruct (loop_total (LagrangeCalc c) elem (d_quad_weights (Lagrange.base c)))
      as [JxW' ->].
    - intros q Hq. exists (detmap_at I quad_key elem q).
      split; [apply HJ, Hq | apply Hpos, Hq].
    - exists JxW'. reflexivity. }
  destruct Hrun as [JxW' Hrun].
  pose proof (returned_length (LagrangeCalc c) _ elem Hsized Hrun) as Hlen.
  pose proof (get_JxW_values (LagrangeCalc c) _ elem Hsized Hrun) as Hval.
  unfold JxW_of in Hlen, Hval. cbn [with_JxW base_of] in Hlen, Hval.
  unfold get_JxW, fmap_outcome in Hrun.
  destruct (Lagrange.get_JxW c elem) as [c'|f]; cbn [bind] in Hrun; [|discriminate].
  injection Hrun as ->. exists (Lagrange.set_base c (set_JxW (Lagrange.base c) JxW')).
  split; [reflexivity|]. split; [exact Hlen|].
  intros q Hq. destruct (Hval q Hq) as (J & HJq & _ & Hq').
  rewrite (HJ q Hq) in HJq. injection HJq as <-.
  rewrite abs_of_positive by (apply Hpos, Hq). exact Hq'.
Qed.

Lemma C1_Lagrange_JxW_witness :
  exists c',
    Lagrange.get_JxW Samples.segment_calculator Samples.segment_3d = Returned c' /\
    d_JxW (Lagrange.base c') !! 0 = Some 3%float.
Proof.
  destruct (C1_Lagrange_JxW (H := Backend.lib) Lagrange_1_3 (EDGE2, QGAUSS, FIRST)
              Samples.segment_calculator Samples.segment_3d)
    as (c' & Hrun & _ & Hval).
  - exists Samples.segment_calculator, [0%float]. repeat split.
  - reflexivity.
  - reflexivity.
  - intros q Hq. change (length _) with 1 in Hq.
    destruct q as [|q]; [reflexivity | lia].
  - exists c'. split; [exact Hrun|].
    rewrite (Hval 0 (Nat.lt_0_succ 0)). reflexivity.
Defined.

(** * Further properties of the constructors and kernels *)

(** ** The buffer *)

Lemma Quad9_new_base `{LibMesh} (quad_key : key_type) (c : Quad9.t) :
  Quad9.new quad_key = Returned c ->
  Quad9.base c = JacobianCalculator_new quad_key.
Proof.
  unfold Quad9.new. destruct (TBOX_ASSERT _ _); cbn [bind]; [|discriminate].
  destruct (Quad9.verify_tensor_product _ _ _); cbn [bind]; [|discriminate].
  intros [= <-]. reflexivity.
Qed.

(** X1.  Every constructor leaves a buffer with one entry per quadrature
    weight, and a call of [get_JxW] that returns keeps it so: the size
    that the statements about [get_JxW] assume holds in every state a
    program can reach. *)
Theorem buffer_size_is_invariant `{LibMesh} :
  (forall quad_key, buffer_sized (JacobianCalculator_new quad_key)) /\
  (forall I quad_key c,
     Lagrange.new I quad_key = Returned c -> buffer_sized (Lagrange.base c)) /\
  (forall quad_key c,
     Quad9.new quad_key = Returned c -> buffer_sized (Quad9.base c)) /\
  (forall c elem c',
     buffer_sized (base_of c) -> get_JxW c elem = Returned c' ->
     buffer_sized (base_of c')).
Proof.
  split; [|split; [|split]].
  - apply JacobianCalculator_new_sized.
  - intros I quad_key c Hnew.
    destruct (Lagrange_new_returned I quad_key c Hnew) as (_ & -> & _).
    apply JacobianCalculator_new_sized.
  - intros quad_key c Hnew. rewrite (Quad9_new_base quad_key c Hnew).
    apply JacobianCalculator_new_sized.
  - intros c elem c' Hsized Hrun.
    pose proof (returned_length c c' elem Hsized Hrun) as Hlen.
    apply get_JxW_returned in Hrun as (_ & JxW' & -> & _).
    unfold buffer_sized. unfold JxW_of in Hlen.
    rewrite base_of_with_JxW in *. exact Hlen.
Qed.

(** ** When [get_JxW] returns and how it fails *)

Lemma kernel_affine (c : Calculator) (elem : Elem) (JxW : list double) :
  is_affine c = true ->
  kernel c elem JxW =
  (J <- J_of c elem 0 ;;
   TBOX_ASSERT J_positive (0 <? J)%float ;;
   Returned (scale_all J JxW)).
Proof. destruct c; try discriminate; reflexivity. Qed.

Lemma kernel_loop (c : Calculator) (elem : Elem) (JxW : list double) :
  is_affine c = false ->
  kernel c elem JxW
  = for_each (seq 0 (length JxW)) (scale_body (J_of c elem)) JxW.
Proof. destruct c; try discriminate; reflexivity. Qed.

(** With the type right and every [J] above zero, a calculator that
    checks [J] inside its loop returns. *)
Lemma loop_kernel_returns (c : Calculator) (elem : Elem) :
  is_affine c = false ->
  buffer_sized (base_of c) ->
  type elem = get0 (d_quad_key (base_of c)) ->
  (forall q, q < n_quad (base_of c) ->
     exists J, J_of c elem q = Returned J /\ (0 <? J)%float = true) ->
  exists JxW', get_JxW c elem = Returned (with_JxW c JxW').
Proof.
  intros Ea Hsized Ht Hall. rewrite get_JxW_kernel.
  rewrite (check_type_and_copy_match _ elem Ht). cbn [bind].
  rewrite (std_copy_sized _ _ Hsized), (kernel_loop c elem _ Ea).
  destruct (loop_total c elem (d_quad_weights (base_of c)) Hall) as [JxW' ->].
  exists JxW'. reflexivity.
Qed.

(** With the type right, the only failure left is the assertion on [J]. *)
Lemma typed_failure (c : Calculator) (elem : Elem) (f : failure) :
  type elem = get0 (d_quad_key (base_of c)) ->
  get_JxW c elem = Aborted f -> f = AssertionFailed J_positive.
Proof.
  intros Ht. rewrite get_JxW_kernel.
  rewrite (check_type_and_copy_match _ elem Ht). cbn [bind].
  destruct (kernel c elem _) as [JxW'|f'] eqn:Ek; cbn [bind]; [discriminate|].
  intros [= <-]. apply (kernel_aborted _ _ _ _ Ek).
Qed.

(** X2.  A call of [get_JxW] returns exactly when the element has the
    type of the key and the determinant is above zero at every quadrature
    point; the Tri3 and Tet4 calculators, which evaluate the determinant
    before the loop, require it above zero even for a rule without
    points. *)
Theorem get_JxW_returns_iff (c : Calculator) (elem : Elem) :
  buffer_sized (base_of c) ->
  returned (get_JxW c elem) = true <->
  type elem = get0 (d_quad_key (base_of c)) /\
  (forall q, q < n_quad (base_of c) ->
     exists J, J_of c elem q = Returned J /\ (0 <? J)%float = true) /\
  (is_affine c = true ->
     exists J, J_of c elem 0 = Returned J /\ (0 <? J)%float = true).
Proof.
  intros Hsized. split.
  - destruct (get_JxW c elem) as [c'|f] eqn:Hrun; [intros _|discriminate].
    pose proof (get_JxW_values c c' elem Hsized Hrun) as Hval.
    apply get_JxW_returned in Hrun as (Ht & JxW' & _ & Hk).
    split; [exact Ht|]. split.
    + intros q Hq. destruct (Hval q Hq) as (J & HJ & Hpos & _). eauto.
    + intros Haff. rewrite (kernel_affine c elem _ Haff) in Hk.
      destruct (J_of c elem 0) as [J|f]; cbn [bind] in Hk; [|discriminate].
      exists J. split; [reflexivity|].
      unfold TBOX_ASSERT in Hk. destruct (0 <? J)%float; [reflexivity|discriminate].
  - intros (Ht & Hall & Haff).
    destruct (is_affine c) eqn:Ea.
    + rewrite get_JxW_kernel.
      rewrite (check_type_and_copy_match _ elem Ht). cbn [bind].
      rewrite (kernel_affine c elem _ Ea).
      destruct (Haff eq_refl) as (J & -> & Hpos). cbn [bind].
      unfold TBOX_ASSERT. rewrite Hpos. reflexivity.
    + destruct (loop_kernel_returns c elem Ea Hsized Ht Hall) as [JxW' ->].
      reflexivity.
Qed.

Lemma get_JxW_returns_iff_witness :
  returned (get_JxW (Quad4Calc Samples.quad4_second) Samples.rectangle_2_1) = true.
Proof.
  apply (get_JxW_returns_iff (Quad4Calc Samples.quad4_second)
           Samples.rectangle_2_1 eq_refl).
  split; [reflexivity|]. split; [|discriminate].
  intros q Hq. change (n_quad _) with 4 in Hq.
  destruct q as [|[|[|[|q]]]]; try lia; eexists; split; reflexivity.
Defined.

(** X3.  The five [get_JxW] fail in two ways only: on the type assertion,
    exactly when the element's type is not the key's, and otherwise on
    the assertion [J > 0.0].  They never fail in the determinant helper
    and never with the error of the base class. *)
Theorem get_JxW_failures (c : Calculator) (elem : Elem) (f : failure) :
  get_JxW c elem = Aborted f ->
  (type elem <> get0 (d_quad_key (base_of c)) /\
   f = AssertionFailed elem_type_is_key_type) \/
  (type elem = get0 (d_quad_key (base_of c)) /\
   f = AssertionFailed J_positive).
Proof.
  intros Hrun.
  destruct (decide (type elem = get0 (d_quad_key (base_of c)))) as [Ht|Ht].
  - right. split; [exact Ht|]. exact (typed_failure c elem f Ht Hrun).
  - left. split; [exact Ht|].
    rewrite get_JxW_kernel, (check_type_and_copy_mismatch _ elem Ht) in Hrun.
    cbn [bind] in Hrun. congruence.
Qed.

Lemma get_JxW_failures_witness :
  (type Samples.triangle_inverted <> get0 (d_quad_key Samples.tri3_first) /\
   AssertionFailed J_positive = AssertionFailed elem_type_is_key_type) \/
  (type Samples.triangle_inverted = get0 (d_quad_key Samples.tri3_first) /\
   AssertionFailed J_positive = AssertionFailed J_positive).
Proof.
  exact (get_JxW_failures (Tri3Calc Samples.tri3_first) Samples.triangle_inverted
           _ eq_refl).
Defined.

(** X4.  On a rule without quadrature points the calculators that check
    [J] inside the loop (generic Lagrange, Quad4, Quad9) return the empty
    sequence for every element of the key's type, whatever its nodes;
    the Tri3 and Tet4 calculators still fail on an element whose
    determinant is not above zero. *)
Theorem empty_rule (c : Calculator) (elem : Elem) :
  buffer_sized (base_of c) ->
  n_quad (base_of c) = 0 ->
  type elem = get0 (d_quad_key (base_of c)) ->
  (is_affine c = false -> get_JxW c elem = Returned (with_JxW c [])) /\
  (is_affine c = true ->
   forall J, J_of c elem 0 = Returned J ->
     get_JxW c elem =
       if (0 <? J)%float then Returned (with_JxW c [])
       else Aborted (AssertionFailed J_positive)).
Proof.
  intros Hsized HQ Ht.
  assert (Hw : d_quad_weights (base_of c) = [])
    by (apply length_zero_iff_nil; exact HQ).
  rewrite get_JxW_kernel, (check_type_and_copy_match _ elem Ht). cbn [bind].
  rewrite (std_copy_sized _ _ Hsized), Hw. split; intros Ha.
  - rewrite (kernel_loop c elem _ Ha). reflexivity.
  - intros J HJ. rewrite (kernel_affine c elem _ Ha), HJ. cbn [bind].
    unfold TBOX_ASSERT. destruct (0 <? J)%float; reflexivity.
Qed.

Lemma empty_rule_witness :
  get_JxW (Quad4Calc (JacobianCalculator_new (H := Backend.lib) (HEX8, QGAUSS, FIRST)))
    (Backend.elem_of HEX8 [])
  = Returned (Quad4Calc (JacobianCalculator_new (H := Backend.lib) (HEX8, QGAUSS, FIRST))).
Proof.
  exact (proj1 (empty_rule
                  (Quad4Calc (JacobianCalculator_new (H := Backend.lib) (HEX8, QGAUSS, FIRST)))
                  (Backend.elem_of HEX8 []) eq_refl eq_refl eq_refl) eq_refl).
Defined.

(** ** The Quad9 kernel *)

(** The four accumulators of the loop are four sums over the grid. *)
Lemma Quad9_J_at_closed (c : Quad9.t) (xs ys : matrix) (q : nat) :
  Quad9.J_at c xs ys q
  = Quad9_J_closed (mat_get (Quad9.d_phi c)) (mat_get (Quad9.d_dphi c))
      (mat_get xs) (mat_get ys)
      (q mod Quad9.d_n_oned_q_points c) (q / Quad9.d_n_oned_q_points c).
Proof.
  unfold Quad9.J_at, Quad9.Jac_at, Quad9_J_closed, sum_grid.
  generalize (q mod Quad9.d_n_oned_q_points c) as qx.
  generalize (q / Quad9.d_n_oned_q_points c) as qy.
  generalize (mat_get (Quad9.d_phi c)) as N.
  generalize (mat_get (Quad9.d_dphi c)) as dN.
  generalize (mat_get xs) as X. generalize (mat_get ys) as Y.
  intros Y X dN N qy qx. reflexivity.
Qed.

Lemma sum_grid_ext (t t' : nat -> nat -> double) :
  (forall i j, i < 3 -> j < 3 -> t i j = t' i j) -> sum_grid t = sum_grid t'.
Proof.
  intros Hext. unfold sum_grid, for_loop. cbn [seq fold_left].
  rewrite !Hext by lia. reflexivity.
Qed.

Lemma tabulate_shape (M N : nat) (f : nat -> nat -> double) :
  table_shape M N (tabulate M N f).
Proof.
  unfold table_shape, tabulate. split.
  - rewrite length_fmap. apply length_seq.
  - intros row Hrow. apply list_elem_of_fmap in Hrow as (i & -> & _).
    rewrite length_fmap. apply length_seq.
Qed.

Lemma Quad9_new_returned `{LibMesh} (quad_key : key_type) (c : Quad9.t) :
  Quad9.new quad_key = Returned c ->
  let pts := d_quad_points (JacobianCalculator_new quad_key) in
  let Q1 := round_sqrt (length pts) in
  let p i := Point1 (coord (Point_at pts i) 0) in
  Q1 * Q1 = length pts /\
  c = {| Quad9.base := JacobianCalculator_new quad_key;
         Quad9.d_n_oned_q_points := Q1;
         Quad9.d_phi := tabulate 3 Q1 (fun a i =>
           shape 1 EDGE3 SECOND (Quad9.ibamr_to_libmesh_ordering a)
             (Point_at (Quad9.oned_points_of pts Q1) i));
         Quad9.d_dphi := tabulate 3 Q1 (fun a i =>
           shape_deriv 1 EDGE3 SECOND (Quad9.ibamr_to_libmesh_ordering a) 0
             (Point_at (Quad9.oned_points_of pts Q1) i)) |}.
Proof.
  intros Hnew pts Q1 p. unfold Quad9.new, TBOX_ASSERT in Hnew.
  fold pts in Hnew. fold Q1 in Hnew.
  destruct (Nat.eqb_spec (Q1 * Q1) (length pts)) as [Hsq|Hsq];
    cbn [bind] in Hnew; [|discriminate].
  destruct (Quad9.verify_tensor_product _ _ _); cbn [bind] in Hnew; [|discriminate].
  injection Hnew as <-. split; [exact Hsq|].
  unfold Quad9.oned_points_of at 1 3. rewrite length_fmap, length_seq.
  reflexivity.
Qed.

(** X5.  A Quad9 calculator that was constructed holds [Q1 = round(sqrt Q)]
    with [Q1 * Q1 = Q], and two tables of 3 rows and [Q1] columns: row [a],
    column [i] of [d_phi] is the second-order EDGE3 shape function of
    libMesh node [0, 2, 1] (for [a = 0, 1, 2]) at the 1-D point [p_i], and
    [d_dphi] holds its derivative. *)
Theorem Quad9_new_tables `{LibMesh} (quad_key : key_type) (c : Quad9.t) :
  Quad9.new quad_key = Returned c ->
  let pts := d_quad_points (JacobianCalculator_new quad_key) in
  let Q1 := round_sqrt (length pts) in
  let p i := Point1 (coord (Point_at pts i) 0) in
  Quad9.d_n_oned_q_points c = Q1 /\
  Q1 * Q1 = length pts /\
  table_shape 3 Q1 (Quad9.d_phi c) /\
  table_shape 3 Q1 (Quad9.d_dphi c) /\
  forall a i, a < 3 -> i < Q1 ->
    mat_get (Quad9.d_phi c) a i
    = shape 1 EDGE3 SECOND (match a with 0 => 0 | 1 => 2 | _ => 1 end) (p i) /\
    mat_get (Quad9.d_dphi c) a i
    = shape_deriv 1 EDGE3 SECOND (match a with 0 => 0 | 1 => 2 | _ => 1 end) 0 (p i).
Proof.
  intros Hnew pts Q1 p.
  destruct (Quad9_new_returned quad_key c Hnew) as [Hsq ->].
  fold pts. fold Q1. cbn [Quad9.d_n_oned_q_points Quad9.d_phi Quad9.d_dphi].
  split; [reflexivity|]. split; [exact Hsq|].
  split; [apply tabulate_shape|]. split; [apply tabulate_shape|].
  intros a i Ha Hi. rewrite !mat_get_tabulate by assumption.
  unfold Quad9.oned_points_of. rewrite Point_at_map_seq by exact Hi.
  split; reflexivity.
Qed.

Lemma Quad9_new_tables_witness :
  exists c, Quad9.new (H := Backend.lib) (QUAD9, QGAUSS, SECOND) = Returned c /\
            Quad9.d_n_oned_q_points c = 2 /\
            table_shape 3 2 (Quad9.d_phi c).
Proof.
  eexists. split; [reflexivity|].
  pose proof (Quad9_new_tables (H := Backend.lib) (QUAD9, QGAUSS, SECOND) _ eq_refl)
    as (Hn & _ & Hphi & _).
  split; [exact Hn | exact Hphi].
Defined.

(** What the Quad9 calculator computes at a quadrature point. *)
Lemma Quad9_J_of `{LibMesh} (quad_key : key_type) (c : Quad9.t) (elem : Elem)
    (q : nat) :
  Quad9_ready quad_key c ->
  q < length (d_quad_points (JacobianCalculator_new quad_key)) ->
  J_of (Quad9Calc c) elem q = Returned (Quad9_J_at quad_key elem q).
Proof.
  intros (c0 & buf & Hnew & _ & ->) Hq.
  pose proof (Quad9_new_tables quad_key c0 Hnew) as Htab. cbv zeta in Htab.
  destruct Htab as (Hn & Hsq & _ & _ & Htab).
  unfold J_of. rewrite Quad9_J_at_closed.
  cbn [Quad9.set_base Quad9.d_phi Quad9.d_dphi Quad9.d_n_oned_q_points].
  rewrite Hn. unfold Quad9_J_at.
  set (pts := d_quad_points (JacobianCalculator_new quad_key)) in *.
  set (Q1 := round_sqrt (length pts)) in *.
  assert (HQ1 : Q1 <> 0) by (intros E; rewrite E in Hsq; simpl in Hsq; lia).
  assert (Hqx : q mod Q1 < Q1) by (apply Nat.mod_upper_bound, HQ1).
  assert (Hqy : q / Q1 < Q1) by (apply Nat.Div0.div_lt_upper_bound; lia).
  assert (Hord : forall a, a < 3 ->
            match a with 0 => 0 | 1 => 2 | _ => 1 end
            = Quad9.ibamr_to_libmesh_ordering a) by (intros; reflexivity).
  unfold Quad9_J_closed. f_equal.
  f_equal; [f_equal|f_equal]; apply sum_grid_ext; intros i j Hi Hj;
    rewrite !mat_get_tabulate by assumption;
    repeat match goal with
           | |- context [mat_get (Quad9.d_phi c0) ?a ?k] =>
               rewrite (proj1 (Htab a k ltac:(assumption) ltac:(assumption)))
           | |- context [mat_get (Quad9.d_dphi c0) ?a ?k] =>
               rewrite (proj2 (Htab a k ltac:(assumption) ltac:(assumption)))
           end; reflexivity.
Qed.

(** X6.  For a Quad9 calculator made by its constructor, on an element of
    the key's type: when the determinant of the biquadratic map is above
    zero at every quadrature point, [get_JxW] returns [Q] values,
    [JxW[q] = w_q * J_q], where [J_q] is the 2 by 2 determinant of the
    sums over the 3 by 3 grid of node coordinate times 1-D shape function
    times 1-D shape derivative, taken at the 1-D points [q mod Q1] and
    [q / Q1]; when it is not above zero at some point, [get_JxW] fails on
    the assertion. *)
Theorem Quad9_get_JxW_values `{LibMesh} (quad_key : key_type) (c : Quad9.t)
    (elem : Elem) :
  Quad9_ready quad_key c ->
  rule_well_formed quad_key ->
  type elem = get0 quad_key ->
  let weights := d_quad_weights (Quad9.base c) in
  ((forall q, q < length weights ->
      (0 <? Quad9_J_at quad_key elem q)%float = true) ->
   exists c',
     Quad9.get_JxW c elem = Returned c' /\
     length (d_JxW (Quad9.base c')) = length weights /\
     forall q, q < length weights ->
       d_JxW (Quad9.base c') !! q
       = Some (at_ weights q * Quad9_J_at quad_key elem q)%float) /\
  ((exists q, q < length weights /\
      (0 <? Quad9_J_at quad_key elem q)%float = false) ->
   Quad9.get_JxW c elem = Aborted (AssertionFailed J_positive)).
Proof.
  intros Hready Hrule Ht weights.
  assert (Hbase : d_quad_key (Quad9.base c) = quad_key /\
                  weights = d_quad_weights (JacobianCalculator_new quad_key) /\
                  buffer_sized (Quad9.base c)).
  { destruct Hready as (c0 & buf & Hnew & Hlen & ->).
    pose proof (Quad9_new_base quad_key c0 Hnew) as Hb.
    subst weights. cbn [Quad9.set_base Quad9.base].
    unfold buffer_sized. rewrite Hb in *. auto. }
  destruct Hbase as (Hkey & Hweights & Hsized).
  assert (HJ : forall q, q < length weights ->
            J_of (Quad9Calc c) elem q = Returned (Quad9_J_at quad_key elem q)).
  { intros q Hq. apply Quad9_J_of; [exact Hready|].
    unfold rule_well_formed in Hrule. rewrite Hweights in Hq.
    unfold JacobianCalculator_new in *. cbn [d_quad_points d_quad_weights] in *.
    rewrite Hrule. exact Hq. }
  assert (Ht' : type elem = get0 (d_quad_key (base_of (Quad9Calc c))))
    by (cbn [base_of]; rewrite Hkey; exact Ht).
  assert (Hlift : forall r, get_JxW (Quad9Calc c) elem = fmap_outcome Quad9Calc r ->
                    Quad9.get_JxW c elem = r).
  { intros r Hr. unfold get_JxW, fmap_outcome in Hr.
    destruct (Quad9.get_JxW c elem), r; cbn [bind] in Hr; congruence. }
  split.
  - intros Hpos.
    destruct (loop_kernel_returns (Quad9Calc c) elem eq_refl Hsized Ht')
      as [JxW0 Hrun].
    { intros q Hq. exists (Quad9_J_at quad_key elem q).
      split; [apply HJ, Hq | apply Hpos, Hq]. }
    set (cc := with_JxW (Quad9Calc c) JxW0) in Hrun.
    pose proof (returned_length (Quad9Calc c) cc elem Hsized Hrun) as Hlen.
    pose proof (get_JxW_values (Quad9Calc c) cc elem Hsized Hrun) as Hval.
    destruct (get_JxW_returned _ _ _ Hrun) as (_ & JxW' & -> & _).
    exists (Quad9.set_base c (set_JxW (Quad9.base c) JxW')).
    split; [apply Hlift; exact Hrun|].
    unfold JxW_of in Hlen, Hval. cbn [with_JxW base_of] in Hlen, Hval.
    split; [exact Hlen|].
    intros q Hq. destruct (Hval q Hq) as (J & HJq & _ & Hq').
    rewrite (HJ q Hq) in HJq. injection HJq as <-. exact Hq'.
  - intros (q & Hq & Hneg). apply Hlift.
    destruct (get_JxW (Quad9Calc c) elem) as [cc|f] eqn:Hrun.
    + destruct (get_JxW_values (Quad9Calc c) cc elem Hsized Hrun q Hq)
        as (J & HJq & Hpos & _).
      rewrite (HJ q Hq) in HJq. injection HJq as <-. congruence.
    + rewrite (typed_failure _ _ _ Ht' Hrun). reflexivity.
Qed.

Lemma Quad9_get_JxW_values_witness :
  exists c',
    Quad9.get_JxW quad9_calculator unit_square9 = Returned c' /\
    length (d_JxW (Quad9.base c')) = 4.
Proof.
  destruct (proj1 (Quad9_get_JxW_values (H := Backend.lib) (QUAD9, QGAUSS, SECOND)
                     quad9_calculator unit_square9
                     (ex_intro _ quad9_calculator
                        (ex_intro _ [0%float; 0%float; 0%float; 0%float]
                           (conj eq_refl (conj eq_refl eq_refl))))
                     eq_refl eq_refl))
    as (c' & Hrun & Hlen & _).
  - intros q Hq. change (length _) with 4 in Hq.
    destruct q as [|[|[|[|q]]]]; [reflexivity .. | lia].
  - exists c'. split; [exact Hrun | exact Hlen].
Defined.

(** X7.  The remap of the nine nodes of a Quad9 element onto the logical
    3 by 3 grid uses every node exactly once, and the reordering of the
    three 1-D shape functions is a permutation that is its own inverse. *)
Theorem grid_node_bijection :
  (forall i j, i < 3 -> j < 3 -> Quad9.grid_node i j < 9) /\
  (forall i j i' j', i < 3 -> j < 3 -> i' < 3 -> j' < 3 ->
     Quad9.grid_node i j = Quad9.grid_node i' j' -> i = i' /\ j = j') /\
  (forall n, n < 9 -> exists i j, i < 3 /\ j < 3 /\ Quad9.grid_node i j = n) /\
  (forall a, a < 3 ->
     Quad9.ibamr_to_libmesh_ordering a < 3 /\
     Quad9.ibamr_to_libmesh_ordering (Quad9.ibamr_to_libmesh_ordering a) = a).
Proof.
  split; [|split; [|split]].
  - intros i j Hi Hj.
    destruct i as [|[|[|i]]], j as [|[|[|j]]]; simpl; lia.
  - intros i j i' j' Hi Hj Hi' Hj'.
    destruct i as [|[|[|i]]], j as [|[|[|j]]], i' as [|[|[|i']]], j' as [|[|[|j']]];
      simpl; try lia; intros; try discriminate; auto.
  - intros n Hn.
    destruct n as [|[|[|[|[|[|[|[|[|n]]]]]]]]]; [| | | | | | | | |lia].
    + exists 0, 0. repeat split; simpl; lia.
    + exists 0, 2. repeat split; simpl; lia.
    + exists 2, 2. repeat split; simpl; lia.
    + exists 2, 0. repeat split; simpl; lia.
    + exists 0, 1. repeat split; simpl; lia.
    + exists 1, 2. repeat split; simpl; lia.
    + exists 2, 1. repeat split; simpl; lia.
    + exists 1, 0. repeat split; simpl; lia.
    + exists 1, 1. repeat split; simpl; lia.
  - intros a Ha. destruct a as [|[|[|a]]]; simpl; lia.
Qed.

(** ** The constructor of the generic calculator *)

(** X8.  The constructor of the generic calculator fails, on its
    assertion, exactly when the element type has more nodes than
    [max_n_nodes].  Otherwise it returns a calculator for the rule of the
    key whose table has one row per node, one column per quadrature point
    and [dim] entries per cell, the entry [node][q][d] being the
    derivative of shape function [node] along axis [d] at point [q], at
    the default order of the element type. *)
Theorem Lagrange_new_table `{LibMesh} (I : instantiation) (quad_key : key_type) :
  let b := JacobianCalculator_new quad_key in
  let n := get_n_nodes (get0 quad_key) in
  (max_n_nodes < n ->
   Lagrange.new I quad_key = Aborted (AssertionFailed n_nodes_bounded)) /\
  (n <= max_n_nodes ->
   exists c,
     Lagrange.new I quad_key = Returned c /\
     Lagrange.inst c = I /\ Lagrange.base c = b /\ Lagrange.d_n_nodes c = n /\
     table_shape n (length (d_quad_points b)) (Lagrange.d_dphi c) /\
     (forall row cell, row ∈ Lagrange.d_dphi c -> cell ∈ row ->
        length cell = dim_of I) /\
     (forall node_n q d, node_n < n -> q < length (d_quad_points b) -> d < dim_of I ->
        Lagrange.dphi_at (Lagrange.d_dphi c) node_n q d
        = shape_deriv (dim_of I) (get0 quad_key) (get_default_order (get0 quad_key))
            node_n d (Point_at (d_quad_points b) q))).
Proof.
  intros b n. split.
  - intros Hn. unfold Lagrange.new, TBOX_ASSERT.
    change (get_n_nodes (get0 (d_quad_key (JacobianCalculator_new quad_key)))) with n.
    destruct (Nat.leb_spec n max_n_nodes); [lia | reflexivity].
  - intros Hn.
    destruct (Lagrange.new I quad_key) as [c|f] eqn:Hnew.
    + exists c. split; [reflexivity|].
      destruct (Lagrange_new_returned I quad_key c Hnew) as (Hi & Hb & Hnn & Hd).
      split; [exact Hi|]. split; [exact Hb|]. split; [exact Hnn|].
      unfold Lagrange.new, TBOX_ASSERT in Hnew.
      destruct (_ <=? max_n_nodes); cbn [bind] in Hnew; [|discriminate].
      injection Hnew as <-. cbn [Lagrange.d_dphi].
      split; [|split; [|exact Hd]].
      * split.
        -- rewrite length_fmap. apply length_seq.
        -- intros row Hrow. apply list_elem_of_fmap in Hrow as (k & -> & _).
           rewrite length_fmap. apply length_seq.
      * intros row cell Hrow Hcell.
        apply list_elem_of_fmap in Hrow as (k & -> & _).
        apply list_elem_of_fmap in Hcell as (q & -> & _).
        rewrite length_fmap. apply length_seq.
    + exfalso. unfold Lagrange.new, TBOX_ASSERT in Hnew.
      change (get_n_nodes (get0 (d_quad_key (JacobianCalculator_new quad_key))))
        with n in Hnew.
      destruct (Nat.leb_spec n max_n_nodes); [discriminate | lia].
Qed.

Lemma Lagrange_new_table_witness :
  exists c,
    Lagrange.new (H := Backend.lib) Lagrange_2_2 (QUAD4, QGAUSS, SECOND) = Returned c /\
    table_shape 4 4 (Lagrange.d_dphi c).
Proof.
  destruct (proj2 (Lagrange_new_table (H := Backend.lib) Lagrange_2_2
                     (QUAD4, QGAUSS, SECOND)))
    as (c & Hnew & _ & _ & _ & Hshape & _).
  - vm_compute. lia.
  - exists c. split; [exact Hnew | exact Hshape].
Defined.

(** ** The Tet4 kernel *)



(** ** Elements that the Tri3 and Tet4 kernels reject *)

Lemma nan_not_positive (x : double) : is_nan x -> (0 <? x)%float = false.
Proof. unfold is_nan. intros Hx. rewrite ltb_spec, Hx. reflexivity. Qed.

Lemma nan_sub_l (x y : double) : is_nan x -> is_nan (x - y).
Proof. unfold is_nan. intros Hx. rewrite sub_spec, Hx. reflexivity. Qed.

Lemma nan_sub_r (x y : double) : is_nan y -> is_nan (x - y).
Proof.
  unfold is_nan. intros Hy. rewrite sub_spec, Hy.
  destruct (Prim2SF x); reflexivity.
Qed.

Lemma nan_add_l (x y : double) : is_nan x -> is_nan (x + y).
Proof. unfold is_nan. intros Hx. rewrite add_spec, Hx. reflexivity. Qed.

Lemma nan_add_r (x y : double) : is_nan y -> is_nan (x + y).
Proof.
  unfold is_nan. intros Hy. rewrite add_spec, Hy.
  destruct (Prim2SF x); reflexivity.
Qed.

Lemma nan_mul_l (x y : double) : is_nan x -> is_nan (x * y).
Proof. unfold is_nan. intros Hx. rewrite mul_spec, Hx. reflexivity. Qed.

Lemma nan_mul_r (x y : double) : is_nan y -> is_nan (x * y).
Proof.
  unfold is_nan. intros Hy. rewrite mul_spec, Hy.
  destruct (Prim2SF x); reflexivity.
Qed.

Create HintDb nan discriminated.
#[local] Hint Resolve nan_sub_l nan_sub_r nan_add_l nan_add_r nan_mul_l nan_mul_r : nan.

(** X10.  A NaN among the coordinates that the Tri3 kernel (x, y of nodes
    0 to 2) or the Tet4 kernel (x, y, z of nodes 0 to 3) reads makes
    [get_JxW] fail: no sequence is handed back for such an element. *)
Theorem nan_coordinate_is_rejected (c : JacobianCalculator) (elem : Elem)
    (i j : nat) :
  is_nan (coord (point elem i) j) ->
  (i < 3 -> j < 2 -> returned (Tri3_get_JxW c elem) = false) /\
  (i < 4 -> j < 3 -> returned (Tet4_get_JxW c elem) = false).
Proof.
  intros Hnan. split; intros Hi Hj.
  - assert (HJ : is_nan (Tri3_J elem)).
    { unfold Tri3_J.
      destruct i as [|[|[|i]]], j as [|[|j]]; try lia; eauto 6 with nan. }
    unfold Tri3_get_JxW. destruct (check_type_and_copy c elem); [|reflexivity].
    cbn [bind]. rewrite (nan_not_positive _ HJ). reflexivity.
  - assert (HJ : is_nan (Tet4_J elem)).
    { unfold Tet4_J.
      destruct i as [|[|[|[|i]]]], j as [|[|[|j]]]; try lia; eauto 8 with nan. }
    unfold Tet4_get_JxW. destruct (check_type_and_copy c elem); [|reflexivity].
    cbn [bind]. rewrite (nan_not_positive _ HJ). reflexivity.
Qed.

Lemma nan_coordinate_is_rejected_witness :
  returned (Tri3_get_JxW Samples.tri3_first nan_triangle) = false.
Proof.
  exact (proj1 (nan_coordinate_is_rejected Samples.tri3_first nan_triangle 1 0
                  eq_refl) ltac:(lia) ltac:(lia)).
Defined.

Lemma zon_not_positive (x : double) : zero_or_nan x -> (0 <? x)%float = false.
Proof.
  unfold zero_or_nan. rewrite ltb_spec, Prim2SF_zero.
  destruct (Prim2SF x); try contradiction; reflexivity.
Qed.

Lemma zon_sub_self (x : double) : zero_or_nan (x - x).
Proof.
  unfold zero_or_nan. rewrite sub_spec. unfold SF64sub.
  destruct (Prim2SF x) as [s|s| |s m e]; try (destruct s; exact I); [exact I|].
  unfold SFsub. rewrite Z.sub_diag. exact I.
Qed.

Lemma zon_mul_l (x y : double) : zero_or_nan x -> zero_or_nan (x * y).
Proof.
  unfold zero_or_nan. rewrite mul_spec. unfold SF64mul.
  destruct (Prim2SF x), (Prim2SF y); try contradiction; intros _; exact I.
Qed.

Lemma zon_mul_r (x y : double) : zero_or_nan y -> zero_or_nan (x * y).
Proof.
  unfold zero_or_nan. rewrite mul_spec. unfold SF64mul.
  destruct (Prim2SF x), (Prim2SF y); try contradiction; intros _; exact I.
Qed.

Lemma zon_sub (x y : double) :
  zero_or_nan x -> zero_or_nan y -> zero_or_nan (x - y).
Proof.
  unfold zero_or_nan. rewrite sub_spec. unfold SF64sub.
  destruct (Prim2SF x) as [sx|sx| |sx mx ex], (Prim2SF y) as [sy|sy| |sy my ey];
    try contradiction; intros _ _; try exact I.
  destruct sx, sy; exact I.
Qed.

(** X12.  A triangle whose node 1 or node 2 coincides with node 0 is
    rejected by the Tri3 calculator.  Both entries of the edge from node 0
    to that node are then a zero or a NaN, each of the two products in [J]
    has such a factor, and [get_JxW] fails. *)
Theorem Tri3_rejects_node_on_node_0 (c : JacobianCalculator) (elem : Elem)
    (j : nat) :
  0 < j -> j < 3 ->
  coincide_xy elem 0 j ->
  zero_or_nan (coord (point elem j) 0 - coord (point elem 0) 0) /\
  zero_or_nan (coord (point elem j) 1 - coord (point elem 0) 1) /\
  returned (Tri3_get_JxW c elem) = false.
Proof.
  intros Hj0 Hj [Hx Hy].
  split; [rewrite <- Hx; apply zon_sub_self|].
  split; [rewrite <- Hy; apply zon_sub_self|].
  assert (HJ : zero_or_nan (Tri3_J elem)).
  { unfold Tri3_J.
    destruct j as [|[|[|j]]]; try lia; rewrite <- Hx, <- Hy.
    - (* node 1 on node 0 *)
      apply zon_sub; [apply zon_mul_l | apply zon_mul_r]; apply zon_sub_self.
    - (* node 2 on node 0 *)
      apply zon_sub; [apply zon_mul_r | apply zon_mul_l]; apply zon_sub_self. }
  unfold Tri3_get_JxW. destruct (check_type_and_copy c elem); [|reflexivity].
  cbn [bind]. rewrite (zon_not_positive _ HJ). reflexivity.
Qed.

Lemma Tri3_rejects_node_on_node_0_witness :
  returned (Tri3_get_JxW Samples.tri3_first flat_triangle) = false.
Proof.
  exact (proj2 (proj2 (Tri3_rejects_node_on_node_0 Samples.tri3_first flat_triangle 1
                         ltac:(lia) ltac:(lia) (conj eq_refl eq_refl)))).
Defined.

(** ** The number of 1-D points of the Quad9 calculator *)

(** X13.  For every rule of up to 1024 points, the number
    [round(sqrt(Q))] that the Quad9 constructor computes in double
    precision is the integer nearest to the square root of [Q]; so the
    assertion [Q1 * Q1 == Q] holds exactly for the perfect squares. *)
Theorem round_sqrt_nearest (Q : nat) :
  Q <= 32 * 32 ->
  nearest_sqrt (Z.of_nat Q) (Z.of_nat (round_sqrt Q)) = true /\
  (round_sqrt Q * round_sqrt Q = Q <-> exists n, Q = n * n).
Proof.
  intros HQ.
  assert (Hall : forallb (fun Q => nearest_sqrt (Z.of_nat Q) (Z.of_nat (round_sqrt Q)))
                   (seq 0 (S (32 * 32))) = true) by (vm_compute; reflexivity).
  rewrite forallb_forall in Hall.
  assert (Hnear := Hall Q ltac:(apply in_seq; lia)). clear Hall.
  split; [exact Hnear|]. split.
  - intros Hsq. exists (round_sqrt Q). symmetry. exact Hsq.
  - intros [n ->]. unfold nearest_sqrt in Hnear.
    apply andb_true_iff in Hnear as [Hup Hlow].
    apply Z.ltb_lt in Hup. apply orb_true_iff in Hlow.
    assert (Hr : round_sqrt (n * n) = n).
    { destruct Hlow as [Hz|Hlow].
      - apply Z.eqb_eq in Hz. nia.
      - apply Z.ltb_lt in Hlow. nia. }
    rewrite Hr. reflexivity.
Qed.

Lemma round_sqrt_nearest_witness :
  round_sqrt 49 * round_sqrt 49 = 49 <-> exists n, 49 = n * n.
Proof.
  exact (proj2 (round_sqrt_nearest 49 ltac:(lia))).
Defined.
